(** * Lung cancer survival analysis: the SQL transformation pipeline

    A shallow embedding of the views of [01_analysis.py]
    ([lung_cancer_cohort], [lung_cancer_patients_dataset],
    [lung_cancer_survival_data]) as functions on lists of rows, with the
    behaviour of SQL nulls written out, followed by the properties the
    specification states about them.

    Tables and views are bags of rows; a list stands for a bag, and bag
    equality is list permutation ([≡ₚ]).  Every column read from a CSV file
    is nullable, hence [option] everywhere. *)

From Stdlib Require Import ZArith QArith Qround Qabs Lqa Lia.
From stdpp Require Import base decidable option numbers strings list.

Local Open Scope Z_scope.

(** ** SQL values *)

(** A [DATE] is the number of days since 1970-01-01, which is also how the
    engine stores it. *)
Definition date := Z.

(** Calendar literals: the day number of year [y], month [m], day [d] in
    the proleptic Gregorian calendar. *)
Definition date_of_ymd (y m d : Z) : date :=
  let y' := if m <=? 2 then y - 1 else y in
  let era := y' / 400 in
  let yoe := y' - era * 400 in
  let mp := if m <=? 2 then m + 9 else m - 3 in
  let doy := (153 * mp + 2) / 5 + d - 1 in
  let doe := yoe * 365 + yoe / 4 - yoe / 100 + doy in
  era * 146097 + doe - 719468.

(** [to_date(col)]: the calendar day of a date or timestamp cell; a null or
    unreadable cell gives null.  Cells are modelled by their calendar day,
    so only the null case is left. *)
Definition to_date (c : option date) : option date := c.

(** [datediff(endDate, startDate)]: days from [startDate] to [endDate];
    null when either is null. *)
Definition datediff (endDate startDate : option date) : option Z :=
  e ← endDate; s ← startDate; Some (e - s).

(** [a / b] on integers: fractional division, null on a null operand or a
    zero divisor. *)
Definition sql_div (a b : option Z) : option Q :=
  x ← a; y ← b;
  if y =? 0 then None else Some (inject_Z x / inject_Z y)%Q.

(** [round(x)] with no scale: the nearest integer, halves away from zero.
    The engine rounds a double and returns a whole-valued double; on the
    quotient of a day count by 356 that is the exact rational rounding
    below. *)
Definition round_half_up (q : Q) : Z :=
  if Qle_bool 0 q then Qfloor (q + (1 # 2)) else - Qfloor (- q + (1 # 2)).

Definition sql_round (q : option Q) : option Z := round_half_up <$> q.

(** Three-valued logic: a condition is true, false or null. *)
Definition sql_eq `{EqDecision A} (a b : option A) : option bool :=
  x ← a; y ← b; Some (bool_decide (x = y)).

(** [x in (v1, ..., vn)] with literal (non-null) right-hand sides. *)
Definition sql_in `{EqDecision A} (a : option A) (vs : list A) : option bool :=
  x ← a; Some (bool_decide (x ∈ vs)).

Definition sql_is_null {A} (a : option A) : option bool :=
  Some (match a with Some _ => false | None => true end).

(** [WHERE], [ON] and [CASE WHEN] select on a condition that is true; false
    and null are treated alike. *)
Definition sql_true (c : option bool) : bool :=
  match c with Some true => true | _ => false end.

(** [max(col)] over a group: nulls are skipped, and a group with no
    non-null value gives null. *)
Definition sql_max2 (x acc : option Z) : option Z :=
  match x, acc with
  | Some a, Some b => Some (Z.max a b)
  | Some a, None => Some a
  | None, _ => acc
  end.

Definition sql_max (col : list (option Z)) : option Z :=
  foldr sql_max2 None col.

(** ** The source tables (the columns the views read) *)

Module Conditions.
Record row := mk {
  PATIENT : option string;
  START : option date;
  CODE : option Z;
  DESCRIPTION : option string }.
End Conditions.

Module Patients.
Record row := mk {
  Id : option string;
  BIRTHDATE : option date;
  DEATHDATE : option date;
  GENDER : option string }.
End Patients.

Module Encounters.
Record row := mk {
  PATIENT : option string;
  STOP : option date }.
End Encounters.

(** ** The views *)

Module Cohort.
Record row := mk {
  PATIENT : option string;
  START_DATE : option date;
  type : string }.
End Cohort.

Module LastDate.
Record row := mk {
  PATIENT : option string;
  last_date_on_record : option date }.
End LastDate.

Module PatientsAndDates.
Record row := mk {
  Id : option string;
  BIRTHDATE : option date;
  death_date : option date;
  GENDER : option string;
  last_date_on_record : option date }.
End PatientsAndDates.

Module Dataset.
Record row := mk {
  PATIENT : option string;
  START_DATE : option date;
  type : string;
  Id : option string;
  BIRTHDATE : option date;
  death_date : option date;
  GENDER : option string;
  last_date_on_record : option date;
  age_at_diagnosis : option Z }.
End Dataset.

Module Survival.
Record row := mk {
  START_DATE : option date;
  death_date : option date;
  GENDER : option string;
  type : string;
  age_at_diagnosis : option Z;
  status : Z;
  time : option Z }.
End Survival.

Global Instance conditions_row_eq_dec : EqDecision Conditions.row.
Proof. solve_decision. Defined.
Global Instance patients_row_eq_dec : EqDecision Patients.row.
Proof. solve_decision. Defined.
Global Instance encounters_row_eq_dec : EqDecision Encounters.row.
Proof. solve_decision. Defined.
Global Instance cohort_row_eq_dec : EqDecision Cohort.row.
Proof. solve_decision. Defined.
Global Instance dataset_row_eq_dec : EqDecision Dataset.row.
Proof. solve_decision. Defined.
Global Instance survival_row_eq_dec : EqDecision Survival.row.
Proof. solve_decision. Defined.

(** *** [lung_cancer_cohort] *)

Definition SCLC : Z := 254632001.
Definition NSCLC : Z := 254637007.

Definition cohort_where (c : Conditions.row) : bool :=
  sql_true (sql_in (Conditions.CODE c) [SCLC; NSCLC]).

Definition cohort_select (c : Conditions.row) : Cohort.row :=
  {| Cohort.PATIENT := Conditions.PATIENT c;
     Cohort.START_DATE := to_date (Conditions.START c);
     Cohort.type :=
       if sql_true (sql_eq (Conditions.CODE c) (Some SCLC))
       then "SCLC" else "NSCLC" |}.

Definition lung_cancer_cohort (conditions : list Conditions.row)
  : list Cohort.row :=
  cohort_select <$> filter (λ c, cohort_where c = true) conditions.

(** *** [lung_cancer_patients_dataset] *)

(** [group by PATIENT]: one group per distinct value, null being a value of
    its own. *)
Definition last_date_of (encounters : list Encounters.row)
    (k : option string) : option date :=
  sql_max ((λ e, to_date (Encounters.STOP e)) <$>
           filter (λ e, Encounters.PATIENT e = k) encounters).

Definition last_date_on_record (encounters : list Encounters.row)
  : list LastDate.row :=
  (λ k, {| LastDate.PATIENT := k;
           LastDate.last_date_on_record := last_date_of encounters k |})
    <$> remove_dups (Encounters.PATIENT <$> encounters).

Definition pad_select (p : Patients.row) (ld : LastDate.row)
  : PatientsAndDates.row :=
  {| PatientsAndDates.Id := Patients.Id p;
     PatientsAndDates.BIRTHDATE := to_date (Patients.BIRTHDATE p);
     PatientsAndDates.death_date := to_date (Patients.DEATHDATE p);
     PatientsAndDates.GENDER := Patients.GENDER p;
     PatientsAndDates.last_date_on_record := LastDate.last_date_on_record ld |}.

Definition patients_and_dates (patients : list Patients.row)
    (ld : list LastDate.row) : list PatientsAndDates.row :=
  p ← patients;
  l ← ld;
  if sql_true (sql_eq (LastDate.PATIENT l) (Patients.Id p))
  then [pad_select p l] else [].

Definition age_of (start_date birthdate : option date) : option Z :=
  sql_round (sql_div (datediff start_date birthdate) (Some 356)).

Definition dataset_select (lcc : Cohort.row) (pad : PatientsAndDates.row)
  : Dataset.row :=
  {| Dataset.PATIENT := Cohort.PATIENT lcc;
     Dataset.START_DATE := Cohort.START_DATE lcc;
     Dataset.type := Cohort.type lcc;
     Dataset.Id := PatientsAndDates.Id pad;
     Dataset.BIRTHDATE := PatientsAndDates.BIRTHDATE pad;
     Dataset.death_date := PatientsAndDates.death_date pad;
     Dataset.GENDER := PatientsAndDates.GENDER pad;
     Dataset.last_date_on_record := PatientsAndDates.last_date_on_record pad;
     Dataset.age_at_diagnosis :=
       age_of (Cohort.START_DATE lcc) (PatientsAndDates.BIRTHDATE pad) |}.

Definition dataset_join (pads : list PatientsAndDates.row) (lcc : Cohort.row)
  : list Dataset.row :=
  pad ← pads;
  if sql_true (sql_eq (Cohort.PATIENT lcc) (PatientsAndDates.Id pad))
  then [dataset_select lcc pad] else [].

Definition lung_cancer_patients_dataset (cohort : list Cohort.row)
    (patients : list Patients.row) (encounters : list Encounters.row)
  : list Dataset.row :=
  cohort ≫= dataset_join (patients_and_dates patients (last_date_on_record encounters)).

(** *** [lung_cancer_survival_data] *)

Definition survival_select (r : Dataset.row) : Survival.row :=
  {| Survival.START_DATE := Dataset.START_DATE r;
     Survival.death_date := Dataset.death_date r;
     Survival.GENDER := Dataset.GENDER r;
     Survival.type := Dataset.type r;
     Survival.age_at_diagnosis := Dataset.age_at_diagnosis r;
     Survival.status :=
       if sql_true (sql_is_null (Dataset.death_date r)) then 0 else 1;
     Survival.time :=
       if sql_true (sql_is_null (Dataset.death_date r))
       then datediff (Dataset.last_date_on_record r) (Dataset.START_DATE r)
       else datediff (Dataset.death_date r) (Dataset.START_DATE r) |}.

Definition lung_cancer_survival_data (dataset : list Dataset.row)
  : list Survival.row :=
  survival_select <$> dataset.

(** The three views chained, from the source tables to the rows handed to
    the estimator. *)
Definition pipeline (patients : list Patients.row)
    (conditions : list Conditions.row) (encounters : list Encounters.row)
  : list Survival.row :=
  lung_cancer_survival_data
    (lung_cancer_patients_dataset (lung_cancer_cohort conditions)
       patients encounters).

(** ** The specification's reading of the views, to compare with the above *)

(** The cohort entry of a condition row tagged with [subtype]. *)
Definition cohort_entry (c : Conditions.row) (subtype : string) : Cohort.row :=
  {| Cohort.PATIENT := Conditions.PATIENT c;
     Cohort.START_DATE := Conditions.START c;
     Cohort.type := subtype |}.

(** A condition row contributes one entry when its code is one of the two
    diagnostic codes, tagged by the code that matched, and nothing
    otherwise. *)
Definition cohort_entries (c : Conditions.row) : list Cohort.row :=
  if decide (Conditions.CODE c = Some 254632001) then [cohort_entry c "SCLC"]
  else if decide (Conditions.CODE c = Some 254637007)
       then [cohort_entry c "NSCLC"]
       else [].

(** The date a survival time is measured to: the death date when there is
    one, the last encounter otherwise. *)
Definition end_date (r : Dataset.row) : option date :=
  match Dataset.death_date r with
  | Some d => Some d
  | None => Dataset.last_date_on_record r
  end.

(** The columns a dataset row takes from its cohort row. *)
Definition cohort_part (r : Dataset.row) : Cohort.row :=
  {| Cohort.PATIENT := Dataset.PATIENT r;
     Cohort.START_DATE := Dataset.START_DATE r;
     Cohort.type := Dataset.type r |}.

(** The patient [k] has a row in [patients]; has a row in [encounters]. *)
Definition has_patient_record (patients : list Patients.row) (k : string)
  : bool :=
  bool_decide (Some k ∈ Patients.Id <$> patients).

Definition has_encounter (encounters : list Encounters.row) (k : string)
  : bool :=
  bool_decide (Some k ∈ Encounters.PATIENT <$> encounters).

(** A cohort row survives the joins when its patient has both. *)
Definition survives_join (patients : list Patients.row)
    (encounters : list Encounters.row) (lcc : Cohort.row) : bool :=
  match Cohort.PATIENT lcc with
  | Some k => has_patient_record patients k && has_encounter encounters k
  | None => false
  end.

(** The row of [patients_and_dates] a patient gets: one, carrying the
    patient's last date, when the patient has an id and an encounter. *)
Definition pad_of (encounters : list Encounters.row) (p : Patients.row)
  : list PatientsAndDates.row :=
  match Patients.Id p with
  | Some k =>
      if has_encounter encounters k
      then [pad_select p (LastDate.mk (Some k)
                            (last_date_of encounters (Some k)))]
      else []
  | None => []
  end.

(** ** The Kaplan-Meier estimator *)

(** Modelled from the spec: the estimator is the library class
    [KaplanMeierFitter], called as [kmf.fit(T, E)]; its code is not among
    the sources.  The definitions below follow the specification's
    description of it: at each distinct observed event time [t_i] the
    survival probability is multiplied by [1 - d_i / n_i], where [d_i] is
    the number of events at [t_i] and [n_i] the number of subjects still at
    risk just before [t_i]; a censored observation leaves the at-risk set
    without contributing a step.  An observation is a pair of a duration
    and an event indicator; probabilities are exact rationals. *)
Definition observations (T : list Z) (E : list bool) : list (Z * bool) :=
  zip T E.

(** Modelled from the spec: [n_i], the number of subjects still at risk
    just before [t] (duration at least [t]). *)
Definition at_risk (obs : list (Z * bool)) (t : Z) : nat :=
  length (filter (λ o, t ≤ o.1) obs).

(** Modelled from the spec: [d_i], the number of events at [t]. *)
Definition events_at (obs : list (Z * bool)) (t : Z) : nat :=
  length (filter (λ o, o.1 = t ∧ o.2 = true) obs).

(** Modelled from the spec: the distinct observed event times. *)
Definition event_times (obs : list (Z * bool)) : list Z :=
  remove_dups ((λ o, o.1) <$> filter (λ o, o.2 = true) obs).

(** Modelled from the spec: the factor [1 - d_i / n_i] of the time [t]. *)
Definition km_factor (obs : list (Z * bool)) (t : Z) : Q :=
  (1 - inject_Z (Z.of_nat (events_at obs t))
       / inject_Z (Z.of_nat (at_risk obs t)))%Q.

Definition Qprod (l : list Q) : Q := foldr Qmult 1%Q l.

(** Modelled from the spec: [S(t)], the estimate of the probability that
    the survival time exceeds [t]: the product of the factors of the event
    times up to and including [t]. *)
Definition survival_function (obs : list (Z * bool)) (t : Z) : Q :=
  Qprod (km_factor obs <$> filter (λ u, u ≤ t) (event_times obs)).

(** The earliest observed duration (0 for no observation). *)
Definition min_time (obs : list (Z * bool)) : Z :=
  match obs with
  | [] => 0
  | o :: obs' => foldr Z.min o.1 ((λ o, o.1) <$> obs')
  end.

(** ** The exploration queries *)

(** [select CODE, DESCRIPTION, count('*') as cnt from conditions
     where code in (...) group by 1,2]: one row per distinct pair of code
    and description among the selected conditions, with the number of
    conditions in the group ([count] of a literal counts every row). *)
Module Distribution.
Record row := mk {
  CODE : option Z;
  DESCRIPTION : option string;
  cnt : Z }.
End Distribution.

Definition code_group (c : Conditions.row) : option Z * option string :=
  (Conditions.CODE c, Conditions.DESCRIPTION c).

Definition code_distribution (vs : list Z) (conditions : list Conditions.row)
  : list Distribution.row :=
  let rows :=
    filter (λ c, sql_true (sql_in (Conditions.CODE c) vs) = true) conditions in
  (λ g, {| Distribution.CODE := g.1;
           Distribution.DESCRIPTION := g.2;
           Distribution.cnt :=
             Z.of_nat (length (filter (λ c, code_group c = g) rows)) |})
    <$> remove_dups (code_group <$> rows).

(** The distribution of cell type. *)
Definition cell_type_distribution (conditions : list Conditions.row)
  : list Distribution.row :=
  code_distribution [254632001; 254637007] conditions.

(** The codes by cell type and stage of diagnosis. *)
Definition codes : list (string * Z) :=
  [("SCLC_IV", 67841000119103);
   ("NSCLC_IV", 423121009);
   ("SCLC_III", 67831000119107);
   ("NSCLC_III", 422968005);
   ("SCLC_II", 67821000119109);
   ("NSCLC_II", 425048006);
   ("SCLC_I", 67811000119102);
   ("NSCLC_I", 424132000)].

(** The distribution by cell type and stage. *)
Definition stage_distribution (conditions : list Conditions.row)
  : list Distribution.row :=
  code_distribution
    [67841000119103; 423121009; 67831000119107; 422968005;
     67821000119109; 425048006; 67811000119102; 424132000] conditions.

(** * Properties *)

(** ** SQL values *)

Lemma sql_true_eq `{EqDecision A} (a b : option A) :
  sql_true (sql_eq a b) = true ↔ ∃ x, a = Some x ∧ b = Some x.
Proof.
  destruct a as [x|], b as [y|]; simpl; try (split; [done | by intros (? & ? & ?)]).
  case_bool_decide; split; try done.
  - intros _. exists x. by subst.
  - intros (z & ? & ?). congruence.
Qed.

Lemma sql_true_in `{EqDecision A} (a : option A) (vs : list A) :
  sql_true (sql_in a vs) = true ↔ ∃ x, a = Some x ∧ x ∈ vs.
Proof.
  destruct a as [x|]; simpl; [|split; [done | by intros (? & ? & ?)]].
  case_bool_decide; split; try done.
  - intros _. by exists x.
  - intros (z & ? & ?). congruence.
Qed.

Lemma sql_true_is_null {A} (a : option A) :
  sql_true (sql_is_null a) = true ↔ a = None.
Proof. by destruct a. Qed.

(** [round_half_up] gives the integer nearest to its argument. *)
Lemma round_half_up_nearest (q : Q) :
  (Qabs (q - inject_Z (round_half_up q)) <= 1 # 2)%Q.
Proof.
  unfold round_half_up. destruct (Qle_bool 0 q) eqn:Hs.
  - pose proof (Qfloor_le (q + (1 # 2))) as Hlo.
    pose proof (Qlt_floor (q + (1 # 2))) as Hhi.
    rewrite inject_Z_plus in Hhi. change (inject_Z 1) with 1%Q in Hhi.
    apply Qabs_Qle_condition. split; lra.
  - pose proof (Qfloor_le (- q + (1 # 2))) as Hlo.
    pose proof (Qlt_floor (- q + (1 # 2))) as Hhi.
    rewrite inject_Z_plus in Hhi. change (inject_Z 1) with 1%Q in Hhi.
    rewrite inject_Z_opp.
    apply Qabs_Qle_condition. split; lra.
Qed.

(** ** The rows of the views *)

Lemma elem_of_cohort (r : Cohort.row) (conditions : list Conditions.row) :
  r ∈ lung_cancer_cohort conditions ↔
  ∃ c, c ∈ conditions ∧ cohort_where c = true ∧ r = cohort_select c.
Proof.
  unfold lung_cancer_cohort. rewrite list_elem_of_fmap. split.
  - intros (c & -> & Hc). apply list_elem_of_filter in Hc as [? ?]. eauto.
  - intros (c & ? & ? & ->). exists c. split; [done|].
    by apply list_elem_of_filter.
Qed.

Lemma elem_of_dataset_join (r : Dataset.row) pads (lcc : Cohort.row) :
  r ∈ dataset_join pads lcc ↔
  ∃ pad, pad ∈ pads ∧ r = dataset_select lcc pad ∧
    ∃ k, Cohort.PATIENT lcc = Some k ∧ PatientsAndDates.Id pad = Some k.
Proof.
  unfold dataset_join. rewrite list_elem_of_bind. split.
  - intros (pad & Hr & Hpad). exists pad.
    destruct (sql_true _) eqn:Hon; [|by apply elem_of_nil in Hr].
    apply list_elem_of_singleton in Hr. by apply sql_true_eq in Hon.
  - intros (pad & Hpad & -> & Hk). exists pad. split; [|done].
    apply sql_true_eq in Hk. rewrite Hk. by apply list_elem_of_singleton.
Qed.

Lemma elem_of_dataset (r : Dataset.row) cohort patients encounters :
  r ∈ lung_cancer_patients_dataset cohort patients encounters ↔
  ∃ lcc, lcc ∈ cohort ∧
    r ∈ dataset_join
          (patients_and_dates patients (last_date_on_record encounters)) lcc.
Proof.
  unfold lung_cancer_patients_dataset. rewrite list_elem_of_bind.
  split; intros (lcc & ? & ?); eauto.
Qed.

Lemma survival_data_Forall2 (P : Dataset.row → Survival.row → Prop) dataset :
  (∀ r, P r (survival_select r)) →
  Forall2 P dataset (lung_cancer_survival_data dataset).
Proof.
  intros HP. unfold lung_cancer_survival_data.
  induction dataset; simpl; constructor; auto.
Qed.

(** ** Cohort Builder *)

Lemma cohort_row_entries (c : Conditions.row) :
  (if cohort_where c then [cohort_select c] else []) = cohort_entries c.
Proof.
  unfold cohort_where, cohort_select, cohort_entries, cohort_entry, to_date.
  destruct (Conditions.CODE c) as [z|]; simpl; [|done].
  unfold SCLC, NSCLC.
  repeat case_decide; repeat case_bool_decide; simplify_eq; try done.
  all: repeat match goal with
       | H : context [_ ∈ _] |- _ => rewrite !elem_of_cons, ?elem_of_nil in H
       end.
  all: exfalso; intuition congruence.
Qed.

(** C2: the cohort holds, for every condition row and in the order of the
    rows, one entry when the row's code is exactly 254632001 (tagged SCLC)
    or exactly 254637007 (tagged NSCLC), and nothing for a row with any
    other code or a null code; so a row is in the cohort if and only if it
    is the entry of a condition row with one of the two codes, tagged by
    the code that matched. *)
Theorem cohort_iff_code (conditions : list Conditions.row) :
  lung_cancer_cohort conditions = conditions ≫= cohort_entries ∧
  ∀ r : Cohort.row,
    r ∈ lung_cancer_cohort conditions ↔
    ∃ c, c ∈ conditions ∧
      ((Conditions.CODE c = Some 254632001 ∧ r = cohort_entry c "SCLC") ∨
       (Conditions.CODE c = Some 254637007 ∧ r = cohort_entry c "NSCLC")).
Proof.
  assert (lung_cancer_cohort conditions = conditions ≫= cohort_entries) as Heq.
  { unfold lung_cancer_cohort.
    induction conditions as [|c cs IH]; [done|].
    rewrite bind_cons, <- cohort_row_entries, <- IH, filter_cons.
    by destruct (cohort_where c). }
  split; [done|]. intros r. rewrite Heq, list_elem_of_bind.
  split.
  - intros (c & Hr & Hc). exists c. split; [done|].
    unfold cohort_entries in Hr. repeat case_decide.
    + apply list_elem_of_singleton in Hr. auto.
    + apply list_elem_of_singleton in Hr. auto.
    + by apply elem_of_nil in Hr.
  - intros (c & Hc & [[Hcode ->]|[Hcode ->]]); exists c; (split; [|done]);
      unfold cohort_entries; rewrite Hcode;
      repeat case_decide; try done; by apply list_elem_of_singleton.
Qed.

(** ** Survival-Record Deriver *)

(** C1: the deriver maps the dataset row by row; each record has status 1
    exactly when the row's death date is not null (and status 0 otherwise),
    its time is the day difference from the diagnosis date to the death
    date when the status is 1 and to the last encounter date otherwise.
    With diagnosis 2021-01-01, death 2021-04-01 and last encounter
    2021-12-01 the record has status 1 and time 90; with diagnosis
    2021-01-01, no death date and last encounter 2021-07-01 it has status 0
    and time 181. *)
Theorem survival_status_time :
  (∀ dataset : list Dataset.row,
    Forall2 (λ r s,
      (Survival.status s = 1 ↔ Dataset.death_date r ≠ None) ∧
      (Survival.status s = 1 ∨ Survival.status s = 0) ∧
      (Survival.status s = 1 →
        Survival.time s =
          datediff (Dataset.death_date r) (Dataset.START_DATE r)) ∧
      (Survival.status s ≠ 1 →
        Survival.time s =
          datediff (Dataset.last_date_on_record r) (Dataset.START_DATE r)))
      dataset (lung_cancer_survival_data dataset)) ∧
  (∀ patient subtype id birth gender age,
    let s := survival_select
      (Dataset.mk patient (Some (date_of_ymd 2021 1 1)) subtype id birth
         (Some (date_of_ymd 2021 4 1)) gender
         (Some (date_of_ymd 2021 12 1)) age) in
    Survival.status s = 1 ∧ Survival.time s = Some 90) ∧
  (∀ patient subtype id birth gender age,
    let s := survival_select
      (Dataset.mk patient (Some (date_of_ymd 2021 1 1)) subtype id birth
         None gender (Some (date_of_ymd 2021 7 1)) age) in
    Survival.status s = 0 ∧ Survival.time s = Some 181).
Proof.
  split; [|split; intros; split; reflexivity].
  intros dataset. apply survival_data_Forall2. intros r.
  unfold survival_select; simpl.
  destruct (Dataset.death_date r); simpl; repeat split; auto; try done.
Qed.

(** C9: the deriver copies the diagnosis date, the death date, the gender,
    the subtype and the age at diagnosis of every dataset row unchanged
    into the record at the same position; status and time are the only
    fields it computes. *)
Theorem survival_copies_fields (dataset : list Dataset.row) :
  Forall2 (λ r s,
    Survival.START_DATE s = Dataset.START_DATE r ∧
    Survival.death_date s = Dataset.death_date r ∧
    Survival.GENDER s = Dataset.GENDER r ∧
    Survival.type s = Dataset.type r ∧
    Survival.age_at_diagnosis s = Dataset.age_at_diagnosis r)
    dataset (lung_cancer_survival_data dataset).
Proof. apply survival_data_Forall2. intros r. by repeat split. Qed.

Lemma survival_time_end_date (r : Dataset.row) :
  Survival.time (survival_select r) = datediff (end_date r) (Dataset.START_DATE r).
Proof. unfold survival_select, end_date. by destruct (Dataset.death_date r). Qed.

(** C5: a dataset row whose end date (the death date, or the last
    encounter date of a censored row) lies before its diagnosis date is
    neither dropped nor clamped: the record at its position carries the
    negative day difference as its time. *)
Theorem negative_time_passed_through
    (dataset : list Dataset.row) (i : nat) (r : Dataset.row) (d e : Z) :
  dataset !! i = Some r →
  Dataset.START_DATE r = Some d →
  end_date r = Some e →
  e < d →
  length (lung_cancer_survival_data dataset) = length dataset ∧
  ∃ s, lung_cancer_survival_data dataset !! i = Some s ∧
       Survival.time s = Some (e - d) ∧ e - d < 0.
Proof.
  intros Hi Hd He Hlt. unfold lung_cancer_survival_data.
  split; [by rewrite length_fmap|].
  exists (survival_select r). rewrite list_lookup_fmap, Hi.
  split; [done|]. rewrite survival_time_end_date, Hd, He. split; [done|lia].
Qed.

Lemma negative_time_passed_through_witness :
  let r := Dataset.mk (Some "p1") (Some (date_of_ymd 2021 6 1)) "SCLC"
             (Some "p1") (Some (date_of_ymd 1950 1 1)) None (Some "M")
             (Some (date_of_ymd 2021 3 1)) (Some 73) in
  ∃ s, lung_cancer_survival_data [r] !! 0%nat = Some s ∧
       Survival.time s = Some (-92).
Proof.
  intros r.
  destruct (negative_time_passed_through [r] 0 r
              (date_of_ymd 2021 6 1) (date_of_ymd 2021 3 1))
    as [_ (s & Hs & Ht & _)]; [reflexivity | reflexivity | reflexivity | | ].
  - vm_compute. reflexivity.
  - exists s. split; [exact Hs | exact Ht].
Defined.

Lemma elem_of_pipeline (s : Survival.row) patients conditions encounters :
  s ∈ pipeline patients conditions encounters ↔
  ∃ r, r ∈ lung_cancer_patients_dataset (lung_cancer_cohort conditions)
             patients encounters ∧
       s = survival_select r.
Proof.
  unfold pipeline, lung_cancer_survival_data. rewrite list_elem_of_fmap.
  split; intros (r & ? & ?); eauto.
Qed.

(** C4, as amended: the time of a record produced by the pipeline is null
    when the diagnosis date or the end date is missing, and otherwise the
    integer day difference from the diagnosis date to the end date, which
    is non-negative exactly when the end date is not before the diagnosis
    date. *)
Theorem time_nonneg_iff_dates
    (patients : list Patients.row) (conditions : list Conditions.row)
    (encounters : list Encounters.row) (s : Survival.row) :
  s ∈ pipeline patients conditions encounters →
  ∃ r, r ∈ lung_cancer_patients_dataset (lung_cancer_cohort conditions)
             patients encounters ∧
       s = survival_select r ∧
       ((Survival.time s = None ∧
         (Dataset.START_DATE r = None ∨ end_date r = None)) ∨
        (∃ d e, Dataset.START_DATE r = Some d ∧ end_date r = Some e ∧
                Survival.time s = Some (e - d) ∧ (0 ≤ e - d ↔ d ≤ e))).
Proof.
  intros (r & Hr & ->)%elem_of_pipeline. exists r. do 2 (split; [done|]).
  rewrite survival_time_end_date.
  destruct (end_date r) as [e|], (Dataset.START_DATE r) as [d|]; simpl; auto.
  right. exists d, e. repeat split; auto; lia.
Qed.

Lemma time_nonneg_iff_dates_witness :
  ∃ r, Dataset.START_DATE r = Some (date_of_ymd 2021 1 1) ∧
       Survival.time (survival_select r) = Some 181.
Proof.
  destruct (time_nonneg_iff_dates
    [Patients.mk (Some "p1") (Some (date_of_ymd 1950 1 1)) None (Some "F")]
    [Conditions.mk (Some "p1") (Some (date_of_ymd 2021 1 1)) (Some NSCLC) None]
    [Encounters.mk (Some "p1") (Some (date_of_ymd 2021 7 1))]
    (Survival.mk (Some (date_of_ymd 2021 1 1)) None (Some "F") "NSCLC"
       (Some 73) 0 (Some 181)))
    as (r & Hr & Hs & _).
  - vm_compute. apply list_elem_of_here.
  - exists r. split.
    + change (Survival.START_DATE (survival_select r)
              = Some (date_of_ymd 2021 1 1)).
      rewrite <- Hs. reflexivity.
    + rewrite <- Hs. reflexivity.
Defined.

(** C4, as stated, fails: a patient whose only encounter stopped 92 days
    before the diagnosis gets a record with time -92. *)
Lemma time_nonneg_counterexample :
  ¬ (∀ patients conditions encounters s,
       s ∈ pipeline patients conditions encounters →
       ∃ t, Survival.time s = Some t ∧ 0 ≤ t).
Proof.
  intros H.
  destruct (H
    [Patients.mk (Some "p1") (Some (date_of_ymd 1950 1 1)) None (Some "M")]
    [Conditions.mk (Some "p1") (Some (date_of_ymd 2021 6 1)) (Some SCLC) None]
    [Encounters.mk (Some "p1") (Some (date_of_ymd 2021 3 1))]
    (Survival.mk (Some (date_of_ymd 2021 6 1)) None (Some "M") "SCLC"
       (Some 73) 0 (Some (-92))))
    as (t & Ht & Hpos).
  - vm_compute. apply list_elem_of_here.
  - simpl in Ht. injection Ht as <-. lia.
Qed.

(** ** Feature Joiner *)

Lemma Forall_dataset (P : Dataset.row → Prop) cohort patients encounters :
  (∀ lcc pad, P (dataset_select lcc pad)) →
  Forall P (lung_cancer_patients_dataset cohort patients encounters).
Proof.
  intros HP. apply Forall_forall. intros r (lcc & _ & Hr)%elem_of_dataset.
  apply elem_of_dataset_join in Hr as (pad & _ & -> & _). apply HP.
Qed.

(** C3: every row of the dataset has, as its age at diagnosis, the day
    difference from the birth date to the diagnosis date divided by 356 and
    rounded to the nearest integer (null when a date is null); the divisor
    is 356 and not 365: birth 1950-01-01 and diagnosis 2020-01-01 are 25567
    days apart and give 72, where 365 would give 70. *)
Theorem age_at_diagnosis_356 :
  (∀ cohort patients encounters,
    Forall (λ r,
      Dataset.age_at_diagnosis r =
        match datediff (Dataset.START_DATE r) (Dataset.BIRTHDATE r) with
        | Some n => Some (round_half_up (inject_Z n / 356))
        | None => None
        end)
      (lung_cancer_patients_dataset cohort patients encounters)) ∧
  (∀ n : Z,
    (Qabs (inject_Z n / 356 - inject_Z (round_half_up (inject_Z n / 356)))
       <= 1 # 2)%Q) ∧
  (∀ patient subtype id death gender last,
    Dataset.age_at_diagnosis
      (dataset_select
         (Cohort.mk patient (Some (date_of_ymd 2020 1 1)) subtype)
         (PatientsAndDates.mk id (Some (date_of_ymd 1950 1 1)) death gender
            last)) = Some 72) ∧
  date_of_ymd 2020 1 1 - date_of_ymd 1950 1 1 = 25567 ∧
  round_half_up (25567 / 356) = 72 ∧
  round_half_up (25567 / 365) = 70.
Proof.
  split; [|split; [|split; [|done]]].
  - intros cohort patients encounters. apply Forall_dataset.
    intros lcc pad. unfold dataset_select, age_of; simpl.
    by destruct (datediff _ _).
  - intros n. apply round_half_up_nearest.
  - intros. reflexivity.
Qed.

(** *** Joins on a key that is unique in the right-hand table *)

Section unique_key_join.
Context {A B : Type} (key : A → option string) (f : A → B).

Lemma elem_of_fmap_omap (l : list A) (k : string) :
  Some k ∈ key <$> l ↔ k ∈ omap key l.
Proof.
  rewrite list_elem_of_fmap, list_elem_of_omap.
  split; intros (a & ? & ?); eauto.
Qed.

Lemma NoDup_omap_key (l : list A) : NoDup (key <$> l) → NoDup (omap key l).
Proof.
  induction l as [|a l IH]; simpl; [constructor|].
  rewrite NoDup_cons. intros [Hnotin Hnd].
  destruct (key a) as [k|] eqn:Hk; [|auto].
  apply NoDup_cons. split; [|auto].
  by rewrite <- elem_of_fmap_omap.
Qed.

Lemma join_no_match (on : A → bool) (l : list A) :
  (∀ a, on a = false) → l ≫= (λ a, if on a then [f a] else []) = [].
Proof.
  intros Hon. induction l as [|a l IH]; [done|].
  by rewrite bind_cons, Hon, IH.
Qed.

(** At most one row of [l] has the key [k]: the join condition selects
    that row, or nothing. *)
Lemma join_unique_key (on : A → bool) (l : list A) (k : string) :
  (∀ a, on a = true ↔ key a = Some k) →
  NoDup (omap key l) →
  (Some k ∈ key <$> l ∧
   ∃ a, a ∈ l ∧ key a = Some k ∧
        l ≫= (λ x, if on x then [f x] else []) = [f a]) ∨
  ((Some k ∉ key <$> l) ∧ l ≫= (λ x, if on x then [f x] else []) = []).
Proof.
  intros Hon. induction l as [|a l IH]; intros Hnd.
  { right. split; [apply not_elem_of_nil | done]. }
  rewrite bind_cons, fmap_cons. simpl in Hnd.
  destruct (on a) eqn:Ha.
  - apply Hon in Ha as Hk. rewrite Hk in Hnd.
    apply NoDup_cons in Hnd as [Hnotin Hnd].
    left. split; [rewrite Hk; apply list_elem_of_here|].
    exists a. split; [apply list_elem_of_here|]. split; [done|].
    destruct (IH Hnd) as [[Hin _]|[_ ->]]; [|done].
    by apply elem_of_fmap_omap in Hin.
  - assert (key a ≠ Some k) as Hk.
    { intros Hk%Hon. congruence. }
    assert (NoDup (omap key l)) as Hnd'.
    { destruct (key a); [by apply NoDup_cons in Hnd as [_ ?] | done]. }
    destruct (IH Hnd') as [[Hin (b & Hb & Hkb & ->)]|[Hnotin ->]].
    + left. split; [by apply list_elem_of_further|].
      exists b. split; [by apply list_elem_of_further | done].
    + right. split; [|done].
      rewrite not_elem_of_cons. split; [congruence | done].
Qed.
End unique_key_join.

(** *** The per-patient last date *)

Lemma last_date_keys (encounters : list Encounters.row) :
  LastDate.PATIENT <$> last_date_on_record encounters =
  remove_dups (Encounters.PATIENT <$> encounters).
Proof.
  unfold last_date_on_record. rewrite <- list_fmap_compose.
  apply list_fmap_id.
Qed.

Lemma elem_of_last_date (l : LastDate.row) (encounters : list Encounters.row) :
  l ∈ last_date_on_record encounters ↔
  LastDate.PATIENT l ∈ Encounters.PATIENT <$> encounters ∧
  LastDate.last_date_on_record l = last_date_of encounters (LastDate.PATIENT l).
Proof.
  unfold last_date_on_record. rewrite list_elem_of_fmap.
  setoid_rewrite elem_of_remove_dups. split.
  - by intros (k & -> & Hk).
  - intros [Hk Hl]. exists (LastDate.PATIENT l). split; [|done].
    destruct l as [k d]; simpl in *. by rewrite Hl.
Qed.

Lemma sql_max_None (col : list (option Z)) :
  sql_max col = None ↔ Forall (λ x, x = None) col.
Proof.
  induction col as [|x col IH]; simpl.
  - split; [constructor | done].
  - rewrite Forall_cons, <- IH.
    destruct x as [a|], (sql_max col) as [b|]; simpl;
      split; try done; try (by intros [? ?]); tauto.
Qed.

Lemma last_date_of_is_Some (encounters : list Encounters.row) k :
  is_Some (last_date_of encounters k) ↔
  ∃ e, e ∈ encounters ∧ Encounters.PATIENT e = k ∧ is_Some (Encounters.STOP e).
Proof.
  unfold last_date_of, to_date.
  rewrite <- not_eq_None_Some, sql_max_None, Forall_fmap, Forall_forall.
  split.
  - intros Hall.
    destruct (decide (Exists (λ e, Encounters.STOP e ≠ None)
                (filter (λ e, Encounters.PATIENT e = k) encounters)))
      as [Hex|Hnex].
    + apply Exists_exists in Hex as (e & [? ?]%list_elem_of_filter & He).
      exists e. by rewrite <- not_eq_None_Some.
    + exfalso. apply Hall. intros e He. simpl.
      destruct (Encounters.STOP e) eqn:Hs; [|done].
      exfalso. apply Hnex, Exists_exists. exists e. by rewrite Hs.
  - intros (e & He & Hk & Hs) Hall.
    specialize (Hall e). simpl in Hall. rewrite Hall in Hs.
    + by destruct Hs.
    + by apply list_elem_of_filter.
Qed.

Lemma last_date_NoDup (encounters : list Encounters.row) :
  NoDup (omap LastDate.PATIENT (last_date_on_record encounters)).
Proof.
  apply NoDup_omap_key. rewrite last_date_keys. apply NoDup_remove_dups.
Qed.

Lemma last_date_has_key (encounters : list Encounters.row) (k : string) :
  Some k ∈ LastDate.PATIENT <$> last_date_on_record encounters ↔
  has_encounter encounters k = true.
Proof.
  rewrite last_date_keys, elem_of_remove_dups.
  unfold has_encounter. by rewrite bool_decide_eq_true.
Qed.

(** The join of [patients] with the per-patient last dates gives each
    patient at most one row. *)
Lemma patients_and_dates_pad_of patients encounters :
  patients_and_dates patients (last_date_on_record encounters) =
  patients ≫= pad_of encounters.
Proof.
  unfold patients_and_dates. apply list_bind_ext; [|done]. intros p.
  unfold pad_of. destruct (Patients.Id p) as [k|] eqn:Hid.
  - destruct (join_unique_key LastDate.PATIENT (pad_select p)
                (λ l, sql_true (sql_eq (LastDate.PATIENT l) (Some k)))
                (last_date_on_record encounters) k)
      as [[Hin (l & Hl & Hk & ->)]|[Hnotin ->]].
    + intros l. rewrite sql_true_eq. split.
      * by intros (x & -> & [= ->]).
      * intros ->. by exists k.
    + apply last_date_NoDup.
    + apply last_date_has_key in Hin as ->.
      apply elem_of_last_date in Hl as [_ Hd].
      destruct l as [k' d]; simpl in *. by subst.
    + destruct (has_encounter encounters k) eqn:He; [|done].
      by apply last_date_has_key in He.
  - apply join_no_match. intros l. by destruct (LastDate.PATIENT l).
Qed.

Lemma patients_and_dates_ids patients encounters :
  omap PatientsAndDates.Id
    (patients_and_dates patients (last_date_on_record encounters)) =
  filter (λ k, has_encounter encounters k = true) (omap Patients.Id patients).
Proof.
  rewrite patients_and_dates_pad_of.
  induction patients as [|p ps IH]; [done|].
  rewrite bind_cons, omap_app, IH. simpl. unfold pad_of.
  destruct (Patients.Id p) as [k|] eqn:Hid; [|done].
  rewrite filter_cons.
  destruct (has_encounter encounters k) eqn:He; simpl.
  - by rewrite Hid.
  - done.
Qed.

Lemma dataset_join_cohort_part patients encounters (lcc : Cohort.row) :
  NoDup (omap Patients.Id patients) →
  cohort_part <$>
    dataset_join (patients_and_dates patients (last_date_on_record encounters))
      lcc =
  if survives_join patients encounters lcc then [lcc] else [].
Proof.
  intros Hnd. unfold dataset_join, survives_join.
  destruct (Cohort.PATIENT lcc) as [k|] eqn:Hp.
  - destruct (join_unique_key PatientsAndDates.Id (dataset_select lcc)
                (λ pad, sql_true (sql_eq (Some k) (PatientsAndDates.Id pad)))
                (patients_and_dates patients (last_date_on_record encounters))
                k)
      as [[Hin (pad & _ & _ & ->)]|[Hnotin ->]].
    + intros pad. rewrite sql_true_eq. split.
      * by intros (x & [= ->] & ->).
      * intros ->. by exists k.
    + rewrite patients_and_dates_ids. by apply NoDup_filter.
    + apply elem_of_fmap_omap in Hin.
      rewrite patients_and_dates_ids in Hin.
      apply list_elem_of_filter in Hin as [-> Hin].
      apply elem_of_fmap_omap in Hin. unfold has_patient_record.
      rewrite bool_decide_eq_true_2 by done. simpl.
      destruct lcc; simpl in *. by subst.
    + destruct (has_patient_record patients k && has_encounter encounters k)
        eqn:Hs; [|done].
      apply andb_prop in Hs as [Hpat Henc]. exfalso. apply Hnotin.
      apply elem_of_fmap_omap. rewrite patients_and_dates_ids.
      apply list_elem_of_filter. split; [done|].
      apply elem_of_fmap_omap. unfold has_patient_record in Hpat.
      by apply bool_decide_eq_true in Hpat.
  - rewrite join_no_match; [done|]. intros pad. done.
Qed.

(** C6: when the non-null patient ids are pairwise distinct, the dataset
    holds exactly one row for every cohort row (every pair of a patient and
    one of its matching conditions) whose patient has a patient record and
    at least one encounter, carrying that cohort row unchanged and in the
    cohort's order, and no row for any other cohort row; so the cohort rows
    that are lost are exactly those whose patient lacks a patient record or
    lacks an encounter. *)
Theorem dataset_rows_per_cohort_row
    (patients : list Patients.row) (conditions : list Conditions.row)
    (encounters : list Encounters.row) :
  NoDup (omap Patients.Id patients) →
  let cohort := lung_cancer_cohort conditions in
  cohort_part <$> lung_cancer_patients_dataset cohort patients encounters =
    filter (λ lcc, survives_join patients encounters lcc = true) cohort ∧
  ∀ lcc, lcc ∈ cohort →
    length (dataset_join
              (patients_and_dates patients (last_date_on_record encounters))
              lcc) =
    if survives_join patients encounters lcc then 1%nat else 0%nat.
Proof.
  intros Hnd cohort. split.
  - unfold lung_cancer_patients_dataset.
    induction cohort as [|lcc cohort' IH]; [done|].
    rewrite bind_cons, fmap_app, IH, filter_cons.
    rewrite dataset_join_cohort_part by done.
    by destruct (survives_join patients encounters lcc).
  - intros lcc _.
    rewrite <- (length_fmap cohort_part), dataset_join_cohort_part by done.
    by destruct (survives_join patients encounters lcc).
Qed.

Lemma survives_join_iff patients encounters (lcc : Cohort.row) :
  survives_join patients encounters lcc = true ↔
  ∃ k, Cohort.PATIENT lcc = Some k ∧
       (∃ p, p ∈ patients ∧ Patients.Id p = Some k) ∧
       (∃ e, e ∈ encounters ∧ Encounters.PATIENT e = Some k).
Proof.
  unfold survives_join, has_patient_record, has_encounter.
  destruct (Cohort.PATIENT lcc) as [k|].
  - rewrite andb_true_iff, !bool_decide_eq_true, !list_elem_of_fmap. split.
    + intros [(p & ? & ?) (e & ? & ?)]. exists k. eauto 10.
    + intros (k' & [= <-] & (p & ? & ?) & (e & ? & ?)). eauto 10.
  - split; [done | by intros (k & ? & _)].
Qed.

Lemma dataset_rows_per_cohort_row_witness :
  let patients :=
    [Patients.mk (Some "p1") (Some (date_of_ymd 1950 1 1)) None (Some "F");
     Patients.mk (Some "p2") (Some (date_of_ymd 1960 5 5)) None (Some "M")] in
  let conditions :=
    [Conditions.mk (Some "p1") (Some (date_of_ymd 2020 1 1)) (Some SCLC) None;
     Conditions.mk (Some "p2") (Some (date_of_ymd 2020 2 1)) (Some NSCLC) None;
     Conditions.mk (Some "p3") (Some (date_of_ymd 2020 3 1)) (Some NSCLC) None;
     Conditions.mk (Some "p1") (Some (date_of_ymd 2020 4 1)) (Some NSCLC) None]
  in
  let encounters :=
    [Encounters.mk (Some "p1") (Some (date_of_ymd 2021 1 1));
     Encounters.mk (Some "p3") (Some (date_of_ymd 2021 1 1))] in
  cohort_part <$>
    lung_cancer_patients_dataset (lung_cancer_cohort conditions)
      patients encounters =
  [Cohort.mk (Some "p1") (Some (date_of_ymd 2020 1 1)) "SCLC";
   Cohort.mk (Some "p1") (Some (date_of_ymd 2020 4 1)) "NSCLC"].
Proof.
  intros patients conditions encounters.
  destruct (dataset_rows_per_cohort_row patients conditions encounters)
    as [Heq _].
  - apply (bool_decide_unpack _). vm_compute. exact I.
  - rewrite Heq. vm_compute. reflexivity.
Defined.

Lemma elem_of_dataset_last_date (r : Dataset.row) cohort patients encounters :
  r ∈ lung_cancer_patients_dataset cohort patients encounters →
  ∃ k, Dataset.PATIENT r = Some k ∧
       has_encounter encounters k = true ∧
       Dataset.last_date_on_record r = last_date_of encounters (Some k).
Proof.
  intros (lcc & _ & Hr)%elem_of_dataset.
  apply elem_of_dataset_join in Hr as (pad & Hpad & -> & k & Hk & Hid).
  exists k. split; [done|].
  rewrite patients_and_dates_pad_of in Hpad.
  apply list_elem_of_bind in Hpad as (p & Hpad & _).
  unfold pad_of in Hpad. destruct (Patients.Id p) as [k'|] eqn:Hp.
  - destruct (has_encounter encounters k') eqn:He.
    + apply list_elem_of_singleton in Hpad as ->. simpl in *.
      rewrite Hp in Hid. injection Hid as ->. done.
    + by apply elem_of_nil in Hpad.
  - by apply elem_of_nil in Hpad.
Qed.

(** C10, as amended: every dataset row belongs to a patient with at least
    one encounter, and its last encounter date is non-null exactly when one
    of that patient's encounters has a non-null stop date; when it has, a
    censored record (status 0) has a non-null time whenever its diagnosis
    date is non-null. *)
Theorem censored_time_not_null
    (patients : list Patients.row) (conditions : list Conditions.row)
    (encounters : list Encounters.row) (r : Dataset.row) :
  r ∈ lung_cancer_patients_dataset (lung_cancer_cohort conditions)
        patients encounters →
  (∃ e, e ∈ encounters ∧ Encounters.PATIENT e = Dataset.PATIENT r) ∧
  (is_Some (Dataset.last_date_on_record r) ↔
   ∃ e, e ∈ encounters ∧ Encounters.PATIENT e = Dataset.PATIENT r ∧
        is_Some (Encounters.STOP e)) ∧
  ((∃ e, e ∈ encounters ∧ Encounters.PATIENT e = Dataset.PATIENT r ∧
         is_Some (Encounters.STOP e)) →
   Survival.status (survival_select r) = 0 →
   is_Some (Dataset.START_DATE r) →
   is_Some (Survival.time (survival_select r))).
Proof.
  intros (k & Hk & He & Hl)%elem_of_dataset_last_date.
  rewrite Hk, Hl, last_date_of_is_Some.
  split; [|split; [done|]].
  - unfold has_encounter in He. apply bool_decide_eq_true in He.
    apply list_elem_of_fmap in He as (e & ? & ?). eauto.
  - intros Hstop%last_date_of_is_Some Hstatus [d Hd].
    unfold survival_select in *; simpl in *.
    destruct (Dataset.death_date r); simpl in *; [done|].
    rewrite Hl, Hd. destruct Hstop as [e ->]. by eexists.
Qed.

Lemma censored_time_not_null_witness :
  ∃ r, Dataset.PATIENT r = Some "p1" ∧
       Survival.time (survival_select r) = Some 181.
Proof.
  pose (r := Dataset.mk (Some "p1") (Some (date_of_ymd 2021 1 1)) "NSCLC"
               (Some "p1") (Some (date_of_ymd 1950 1 1)) None (Some "F")
               (Some (date_of_ymd 2021 7 1)) (Some 73)).
  destruct (censored_time_not_null
    [Patients.mk (Some "p1") (Some (date_of_ymd 1950 1 1)) None (Some "F")]
    [Conditions.mk (Some "p1") (Some (date_of_ymd 2021 1 1)) (Some NSCLC) None]
    [Encounters.mk (Some "p1") None;
     Encounters.mk (Some "p1") (Some (date_of_ymd 2021 7 1))]
    r) as (_ & _ & Htime).
  - vm_compute. apply list_elem_of_here.
  - exists r. split; [reflexivity|].
    destruct Htime as [t Ht].
    + eexists. split; [apply list_elem_of_further, list_elem_of_here|].
      split; [reflexivity | by eexists].
    + reflexivity.
    + by eexists.
    + reflexivity.
Defined.

(** C10, as stated, fails: a patient whose encounters all have a null stop
    date passes the inner join with a null last date, and the censored
    record has a null time although its diagnosis date is not null. *)
Lemma censored_time_null_counterexample :
  ¬ (∀ patients conditions encounters r,
       r ∈ lung_cancer_patients_dataset (lung_cancer_cohort conditions)
             patients encounters →
       Survival.status (survival_select r) = 0 →
       is_Some (Dataset.last_date_on_record r) ∧
       (is_Some (Dataset.START_DATE r) →
        is_Some (Survival.time (survival_select r)))).
Proof.
  intros H.
  destruct (H
    [Patients.mk (Some "p1") (Some (date_of_ymd 1950 1 1)) None (Some "F")]
    [Conditions.mk (Some "p1") (Some (date_of_ymd 2021 1 1)) (Some NSCLC) None]
    [Encounters.mk (Some "p1") None]
    (Dataset.mk (Some "p1") (Some (date_of_ymd 2021 1 1)) "NSCLC"
       (Some "p1") (Some (date_of_ymd 1950 1 1)) None (Some "F")
       None (Some 73))) as [[d Hd] _].
  - vm_compute. apply list_elem_of_here.
  - reflexivity.
  - discriminate Hd.
Qed.

(** ** The pipeline on bags of rows *)

Lemma sql_max2_swap (x y acc : option Z) :
  sql_max2 x (sql_max2 y acc) = sql_max2 y (sql_max2 x acc).
Proof.
  destruct x as [a|], y as [b|], acc as [c|]; simpl; f_equal; lia.
Qed.

Lemma sql_max_Permutation (col col' : list (option Z)) :
  col ≡ₚ col' → sql_max col = sql_max col'.
Proof.
  unfold sql_max. induction 1 as [|x l l' _ IH|x y l|l1 l2 l3 _ IH1 _ IH2]; simpl.
  - done.
  - by rewrite IH.
  - apply sql_max2_swap.
  - by rewrite IH1.
Qed.

Lemma last_date_of_Permutation encounters encounters' k :
  encounters ≡ₚ encounters' →
  last_date_of encounters k = last_date_of encounters' k.
Proof.
  intros Hp. unfold last_date_of. apply sql_max_Permutation.
  by rewrite Hp.
Qed.

Lemma remove_dups_Permutation `{EqDecision A} (l l' : list A) :
  l ≡ₚ l' → remove_dups l ≡ₚ remove_dups l'.
Proof.
  intros Hp. apply NoDup_Permutation; try apply NoDup_remove_dups.
  intros x. by rewrite !elem_of_remove_dups, Hp.
Qed.

Lemma last_date_on_record_Permutation encounters encounters' :
  encounters ≡ₚ encounters' →
  last_date_on_record encounters ≡ₚ last_date_on_record encounters'.
Proof.
  intros Hp. unfold last_date_on_record.
  rewrite (remove_dups_Permutation _ (Encounters.PATIENT <$> encounters'))
    by (by rewrite Hp).
  erewrite list_fmap_ext; [done|].
  intros _ k _. simpl. f_equal. by apply last_date_of_Permutation.
Qed.

Lemma bind_Permutation_ext {A B} (f g : A → list B) (l l' : list A) :
  (∀ x, f x ≡ₚ g x) → l ≡ₚ l' → l ≫= f ≡ₚ l' ≫= g.
Proof.
  intros Hfg Hp. rewrite <- Hp. clear l' Hp.
  induction l as [|x l IH]; [done|].
  by rewrite !bind_cons, IH, Hfg.
Qed.

Lemma patients_and_dates_Permutation patients patients' ld ld' :
  patients ≡ₚ patients' → ld ≡ₚ ld' →
  patients_and_dates patients ld ≡ₚ patients_and_dates patients' ld'.
Proof.
  intros Hp Hl. unfold patients_and_dates.
  apply bind_Permutation_ext; [|done]. intros p. by rewrite Hl.
Qed.

Lemma dataset_Permutation cohort cohort' patients patients'
    encounters encounters' :
  cohort ≡ₚ cohort' → patients ≡ₚ patients' → encounters ≡ₚ encounters' →
  lung_cancer_patients_dataset cohort patients encounters ≡ₚ
  lung_cancer_patients_dataset cohort' patients' encounters'.
Proof.
  intros Hc Hp He. unfold lung_cancer_patients_dataset.
  apply bind_Permutation_ext; [|done]. intros lcc. unfold dataset_join.
  apply bind_Permutation_ext; [done|].
  apply patients_and_dates_Permutation; [done|].
  by apply last_date_on_record_Permutation.
Qed.

(** C7: the pipeline is a function of its three input tables, so two runs
    on the same tables give the same records; and the records it produces
    do not depend on the order in which the rows of the tables are read:
    tables that hold the same rows give the same bag of survival
    records. *)
Theorem pipeline_deterministic
    (patients patients' : list Patients.row)
    (conditions conditions' : list Conditions.row)
    (encounters encounters' : list Encounters.row) :
  patients ≡ₚ patients' →
  conditions ≡ₚ conditions' →
  encounters ≡ₚ encounters' →
  pipeline patients conditions encounters ≡ₚ
  pipeline patients' conditions' encounters'.
Proof.
  intros Hp Hc He. unfold pipeline, lung_cancer_survival_data.
  apply fmap_Permutation. apply dataset_Permutation; [|done..].
  unfold lung_cancer_cohort. by rewrite Hc.
Qed.

Lemma pipeline_deterministic_witness :
  let p1 := Patients.mk (Some "p1") (Some (date_of_ymd 1950 1 1)) None
              (Some "F") in
  let p2 := Patients.mk (Some "p2") (Some (date_of_ymd 1960 5 5))
              (Some (date_of_ymd 2021 4 1)) (Some "M") in
  let c1 := Conditions.mk (Some "p1") (Some (date_of_ymd 2021 1 1))
              (Some NSCLC) None in
  let c2 := Conditions.mk (Some "p2") (Some (date_of_ymd 2021 1 1))
              (Some SCLC) None in
  let e1 := Encounters.mk (Some "p1") (Some (date_of_ymd 2021 7 1)) in
  let e2 := Encounters.mk (Some "p2") (Some (date_of_ymd 2021 12 1)) in
  let e3 := Encounters.mk (Some "p1") (Some (date_of_ymd 2021 2 1)) in
  pipeline [p1; p2] [c1; c2] [e1; e2; e3] ≡ₚ
  pipeline [p2; p1] [c2; c1] [e2; e1; e3].
Proof.
  intros p1 p2 c1 c2 e1 e2 e3.
  apply pipeline_deterministic.
  - apply perm_swap.
  - apply perm_swap.
  - apply perm_swap.
Defined.

(** ** Kaplan-Meier estimator *)

Lemma events_at_le_at_risk (obs : list (Z * bool)) (t : Z) :
  (events_at obs t ≤ at_risk obs t)%nat.
Proof.
  unfold events_at, at_risk.
  induction obs as [|o obs IH]; [done|].
  rewrite !filter_cons.
  destruct (decide (o.1 = t ∧ o.2 = true)) as [[Ht _]|_].
  - rewrite decide_True by lia. simpl. lia.
  - destruct (decide (t ≤ o.1)); simpl; lia.
Qed.

Lemma km_factor_bounds (obs : list (Z * bool)) (t : Z) :
  (0 <= km_factor obs t <= 1)%Q.
Proof.
  unfold km_factor.
  pose proof (events_at_le_at_risk obs t) as Hle.
  set (d := events_at obs t) in *. set (n := at_risk obs t) in *.
  destruct n as [|n].
  - assert (d = 0%nat) as -> by lia. simpl. split; vm_compute; discriminate.
  - assert (0 <= inject_Z (Z.of_nat d) / inject_Z (Z.of_nat (S n)) <= 1)%Q
      as [Hlo Hhi]; [|split; lra].
    assert (0 < inject_Z (Z.of_nat (S n)))%Q as Hpos.
    { change 0%Q with (inject_Z 0). rewrite <- Zlt_Qlt. lia. }
    split.
    + apply Qle_shift_div_l; [done|]. rewrite Qmult_0_l.
      change 0%Q with (inject_Z 0). rewrite <- Zle_Qle. lia.
    + apply Qle_shift_div_r; [done|]. rewrite Qmult_1_l.
      rewrite <- Zle_Qle. lia.
Qed.

Lemma Qprod_app (l1 l2 : list Q) :
  (Qprod (l1 ++ l2) == Qprod l1 * Qprod l2)%Q.
Proof.
  unfold Qprod. induction l1 as [|q l1 IH]; simpl.
  - by rewrite Qmult_1_l.
  - by rewrite IH, Qmult_assoc.
Qed.

Lemma Qprod_Permutation (l1 l2 : list Q) :
  l1 ≡ₚ l2 → (Qprod l1 == Qprod l2)%Q.
Proof.
  unfold Qprod.
  induction 1 as [|q l l' _ IH|p q l|l1 l2 l3 _ IH1 _ IH2]; simpl.
  - reflexivity.
  - by rewrite IH.
  - ring.
  - by rewrite IH1.
Qed.

Lemma Qprod_bounds (l : list Q) :
  Forall (λ q, 0 <= q <= 1)%Q l → (0 <= Qprod l <= 1)%Q.
Proof.
  unfold Qprod. induction 1 as [|q l [Hlo Hhi] _ [IHlo IHhi]]; simpl.
  - split; vm_compute; discriminate.
  - split; [by apply Qmult_le_0_compat|].
    apply Qle_trans with (1 * 1)%Q; [|vm_compute; discriminate].
    apply Qmult_le_compat_nonneg; split; done.
Qed.

Lemma filter_le_split (l : list Z) (t1 t2 : Z) :
  t1 ≤ t2 →
  filter (λ u, u ≤ t2) l ≡ₚ
  filter (λ u, u ≤ t1) l ++ filter (λ u, t1 < u ∧ u ≤ t2) l.
Proof.
  intros Hle. induction l as [|u l IH]; [done|].
  rewrite !filter_cons.
  destruct (decide (u ≤ t1)).
  - rewrite decide_True by lia. rewrite decide_False by lia.
    simpl. by rewrite IH.
  - destruct (decide (u ≤ t2)).
    + rewrite decide_True by lia. rewrite IH. apply Permutation_middle.
    + rewrite decide_False by lia. done.
Qed.

(** From [t1] to a later [t2] the estimate is multiplied by the factors of
    the event times in between. *)
Lemma survival_function_step (obs : list (Z * bool)) (t1 t2 : Z) :
  t1 ≤ t2 →
  (survival_function obs t2 ==
   survival_function obs t1 *
   Qprod (km_factor obs <$>
          filter (λ u : Z, (t1 < u ∧ u ≤ t2)%Z) (event_times obs)))%Q.
Proof.
  intros Hle. unfold survival_function.
  rewrite <- Qprod_app, <- fmap_app.
  apply Qprod_Permutation, fmap_Permutation. by apply filter_le_split.
Qed.

Lemma survival_function_bounds (obs : list (Z * bool)) (t : Z) :
  (0 <= survival_function obs t <= 1)%Q.
Proof.
  apply Qprod_bounds, Forall_fmap, Forall_forall.
  intros u _. apply km_factor_bounds.
Qed.

Lemma filter_none {A} (P : A → Prop) `{∀ x, Decision (P x)} (l : list A) :
  (∀ x, x ∈ l → ¬ P x) → filter P l = [].
Proof.
  intros Hl. induction l as [|x l IH]; [done|].
  rewrite filter_cons, decide_False by (apply Hl, list_elem_of_here).
  apply IH. intros y Hy. by apply Hl, list_elem_of_further.
Qed.

Lemma event_times_NoDup (obs : list (Z * bool)) : NoDup (event_times obs).
Proof. apply NoDup_remove_dups. Qed.

Lemma survival_function_mono (obs : list (Z * bool)) (t1 t2 : Z) :
  t1 ≤ t2 → (survival_function obs t2 <= survival_function obs t1)%Q.
Proof.
  intros Hle. rewrite (survival_function_step obs t1 t2 Hle).
  pose proof (survival_function_bounds obs t1) as [Hs _].
  assert (0 <= Qprod (km_factor obs <$>
            filter (λ u : Z, (t1 < u ∧ u ≤ t2)%Z) (event_times obs)) <= 1)%Q
    as [_ Hp].
  { apply Qprod_bounds, Forall_fmap, Forall_forall.
    intros u _. apply km_factor_bounds. }
  rewrite <- (Qmult_1_r (survival_function obs t1)) at 2.
  rewrite !(Qmult_comm (survival_function obs t1)).
  by apply Qmult_le_compat_r.
Qed.

Lemma survival_function_constant (obs : list (Z * bool)) (t' t : Z) :
  t' ≤ t →
  (∀ u, u ∈ event_times obs → ¬ (t' < u ∧ u ≤ t)) →
  (survival_function obs t == survival_function obs t')%Q.
Proof.
  intros Hle Hno. rewrite (survival_function_step obs t' t Hle).
  rewrite filter_none by done. simpl. apply Qmult_1_r.
Qed.

Lemma survival_function_at_event (obs : list (Z * bool)) (t' ti : Z) :
  ti ∈ event_times obs → t' < ti →
  (∀ u, u ∈ event_times obs → t' < u → u ≤ ti → u = ti) →
  (survival_function obs ti ==
   survival_function obs t' * km_factor obs ti)%Q.
Proof.
  intros Hti Hlt Honly.
  rewrite (survival_function_step obs t' ti) by lia.
  assert (filter (λ u : Z, t' < u ∧ u ≤ ti) (event_times obs) ≡ₚ [ti])
    as Hperm.
  { apply NoDup_Permutation.
    - apply NoDup_filter, event_times_NoDup.
    - apply NoDup_singleton.
    - intros u. rewrite list_elem_of_filter, list_elem_of_singleton. split.
      + intros [[? ?] ?]. by apply Honly.
      + intros ->. split; [lia | done]. }
  apply (fmap_Permutation (km_factor obs)), Qprod_Permutation in Hperm.
  rewrite Hperm. simpl. by rewrite Qmult_1_r.
Qed.

Lemma elem_of_event_times (obs : list (Z * bool)) (u : Z) :
  u ∈ event_times obs ↔ (u, true) ∈ obs.
Proof.
  unfold event_times. rewrite elem_of_remove_dups, list_elem_of_fmap. split.
  - intros ([u' b] & -> & [Hb Ho]%list_elem_of_filter).
    simpl in *. by subst.
  - intros Ho. exists (u, true). split; [done|].
    by apply list_elem_of_filter.
Qed.

Lemma km_factor_lt_1 (obs : list (Z * bool)) (u : Z) :
  u ∈ event_times obs → (km_factor obs u < 1)%Q.
Proof.
  intros Hu%elem_of_event_times. unfold km_factor.
  pose proof (events_at_le_at_risk obs u) as Hle.
  assert (1 ≤ events_at obs u)%nat as Hd.
  { unfold events_at.
    assert ((u, true) ∈ filter (λ o : Z * bool, o.1 = u ∧ o.2 = true) obs)
      as Hin by (by apply list_elem_of_filter).
    destruct (filter _ obs); [by apply elem_of_nil in Hin|]. simpl. lia. }
  set (d := events_at obs u) in *. set (n := at_risk obs u) in *.
  set (q := (inject_Z (Z.of_nat d) / inject_Z (Z.of_nat n))%Q).
  assert (0 < q)%Q as Hq; [|clearbody q; clear -Hq; lra].
  apply Qlt_shift_div_l.
  - change 0%Q with (inject_Z 0). rewrite <- Zlt_Qlt. lia.
  - rewrite Qmult_0_l. change 0%Q with (inject_Z 0). rewrite <- Zlt_Qlt. lia.
Qed.

(** The estimate is 1 exactly before the first event time. *)
Lemma survival_function_one_iff (obs : list (Z * bool)) (t : Z) :
  (survival_function obs t == 1)%Q ↔ ∀ u, u ∈ event_times obs → t < u.
Proof.
  split.
  - intros Hone u Hu. destruct (decide (t < u)) as [|Hge]; [done|].
    exfalso.
    pose proof (survival_function_mono obs u t ltac:(lia)) as Hmono.
    pose proof (survival_function_at_event obs (u - 1) u Hu ltac:(lia)
                  ltac:(intros; lia)) as Hstep.
    pose proof (survival_function_bounds obs (u - 1)) as [_ Hc].
    pose proof (km_factor_bounds obs u) as [Hf _].
    pose proof (km_factor_lt_1 obs u Hu) as Hlt.
    assert (survival_function obs (u - 1) * km_factor obs u
            <= 1 * km_factor obs u)%Q as Hmul
      by (by apply Qmult_le_compat_r).
    rewrite <- Hstep, Qmult_1_l in Hmul. rewrite Hone in Hmono. lra.
  - intros Ht. unfold survival_function.
    rewrite filter_none; [reflexivity|].
    intros u Hu%Ht. lia.
Qed.

Lemma foldr_min_le (a : Z) (l : list Z) :
  foldr Z.min a l ≤ a ∧ ∀ x, x ∈ l → foldr Z.min a l ≤ x.
Proof.
  induction l as [|y l [IHa IHl]]; cbn [foldr].
  - split; [lia | by intros x ?%elem_of_nil].
  - split; [lia|]. intros x [->|Hx]%elem_of_cons; [lia|].
    specialize (IHl x Hx). lia.
Qed.

Lemma min_time_le (obs : list (Z * bool)) (o : Z * bool) :
  o ∈ obs → min_time obs ≤ o.1.
Proof.
  destruct obs as [|o0 obs]; [by intros ?%elem_of_nil|].
  unfold min_time. intros [->|Ho]%elem_of_cons.
  - apply (proj1 (foldr_min_le _ _)).
  - apply (proj2 (foldr_min_le _ _)), list_elem_of_fmap. by exists o.
Qed.

(** C8, as amended: for every non-empty, valid input of equal-length
    sequences (durations that are not negative, event indicators), the
    Kaplan-Meier survival function is non-increasing in t; it is 1 exactly
    at the times t that are earlier than every observed event time, so at
    t = 0 exactly when no event has duration 0 and at the minimum observed
    time exactly when no event occurs at that time; it does not change
    over an interval without event time; and at each distinct observed
    event time t_i it is the value just before multiplied by
    1 - d_i / n_i. *)
Theorem km_survival_function (T : list Z) (E : list bool) :
  T ≠ [] →
  length T = length E →
  Forall (λ d, 0 ≤ d) T →
  let obs := observations T E in
  (∀ t1 t2, t1 ≤ t2 →
     (survival_function obs t2 <= survival_function obs t1)%Q) ∧
  (∀ t, (survival_function obs t == 1)%Q ↔
        ∀ u, u ∈ event_times obs → t < u) ∧
  ((survival_function obs 0 == 1)%Q ↔ (0, true) ∉ obs) ∧
  ((survival_function obs (min_time obs) == 1)%Q ↔
   (min_time obs, true) ∉ obs) ∧
  (∀ t' t, t' ≤ t →
     (∀ u, u ∈ event_times obs → ¬ (t' < u ∧ u ≤ t)) →
     (survival_function obs t == survival_function obs t')%Q) ∧
  (∀ t' ti, ti ∈ event_times obs → t' < ti →
     (∀ u, u ∈ event_times obs → t' < u → u ≤ ti → u = ti) →
     (survival_function obs ti ==
      survival_function obs t' * km_factor obs ti)%Q).
Proof.
  intros _ _ Hvalid obs.
  split; [apply survival_function_mono|].
  split; [apply survival_function_one_iff|].
  split; [|split; [|split;
    [apply survival_function_constant | apply survival_function_at_event]]].
  - rewrite survival_function_one_iff. split.
    + intros Hall Hin%elem_of_event_times. specialize (Hall 0 Hin). lia.
    + intros Hno u Hu. apply elem_of_event_times in Hu as Hin.
      assert (0 ≤ u).
      { rewrite Forall_forall in Hvalid. apply Hvalid.
        by apply elem_of_zip_l in Hin. }
      destruct (decide (u = 0)) as [->|]; [done | lia].
  - rewrite survival_function_one_iff. split.
    + intros Hall Hin%elem_of_event_times.
      specialize (Hall _ Hin). lia.
    + intros Hno u Hu. apply elem_of_event_times in Hu as Hin.
      pose proof (min_time_le obs _ Hin) as Hle. simpl in Hle.
      destruct (decide (u = min_time obs)) as [->|]; [done | lia].
Qed.

Lemma km_survival_function_witness :
  let obs := observations [3; 5; 5; 7; 9] [true; false; true; true; false] in
  (survival_function obs 0 == 1)%Q ∧
  (survival_function obs 5 == survival_function obs 4 * km_factor obs 5)%Q.
Proof.
  intros obs.
  destruct (km_survival_function [3; 5; 5; 7; 9]
              [true; false; true; true; false])
    as (_ & _ & Hzero & _ & _ & Hstep).
  - discriminate.
  - reflexivity.
  - repeat constructor; lia.
  - split.
    + apply Hzero. vm_compute. intros Hin.
      repeat (apply elem_of_cons in Hin as [Hin|Hin]; [discriminate Hin|]).
      by apply elem_of_nil in Hin.
    + apply Hstep.
      * vm_compute. apply list_elem_of_further, list_elem_of_here.
      * lia.
      * intros u Hu Hlo Hhi. lia.
Defined.

(** C8, as stated, fails: with durations 0 and 5, where the first is an
    event and the second is censored, the estimate at t = 0, which is also
    the earliest observed time, is 1/2. *)
Lemma km_starts_at_one_counterexample :
  ¬ (∀ (T : list Z) (E : list bool),
       T ≠ [] → length T = length E → Forall (λ d, 0 ≤ d) T →
       let obs := observations T E in
       (survival_function obs 0 == 1)%Q ∨
       (survival_function obs (min_time obs) == 1)%Q).
Proof.
  intros H.
  destruct (H [0; 5] [true; false]) as [Hs|Hs].
  - done.
  - done.
  - repeat constructor; lia.
  - vm_compute in Hs. discriminate Hs.
  - vm_compute in Hs. discriminate Hs.
Qed.

(** * Further properties of the views *)

(** ** The per-patient last date *)

Lemma length_remove_dups `{EqDecision A} (l : list A) :
  (length (remove_dups l) ≤ length l)%nat.
Proof.
  induction l as [|x l IH]; simpl; [done|].
  destruct (decide_rel elem_of x l); simpl; lia.
Qed.

(** [last_date_on_record] has exactly one row for every distinct [PATIENT]
    value of [encounters], null being one of the values, and no other
    row. *)
Theorem last_date_one_row_per_patient (encounters : list Encounters.row) :
  NoDup (LastDate.PATIENT <$> last_date_on_record encounters) ∧
  (∀ k, k ∈ LastDate.PATIENT <$> last_date_on_record encounters ↔
        k ∈ Encounters.PATIENT <$> encounters) ∧
  (length (last_date_on_record encounters) ≤ length encounters)%nat.
Proof.
  rewrite last_date_keys. split; [apply NoDup_remove_dups|]. split.
  - intros k. apply elem_of_remove_dups.
  - rewrite <- (length_fmap LastDate.PATIENT), last_date_keys.
    rewrite <- (length_fmap Encounters.PATIENT encounters).
    apply length_remove_dups.
Qed.

Lemma sql_max_Some (col : list (option Z)) (m : Z) :
  sql_max col = Some m →
  Some m ∈ col ∧ ∀ d, Some d ∈ col → d ≤ m.
Proof.
  revert m. induction col as [|x col IH]; intros m; simpl; [done|].
  destruct x as [a|], (sql_max col) as [b|] eqn:Hb; simpl.
  - intros [= <-]. destruct (IH b eq_refl) as [Hin Hub]. split.
    + destruct (Z.max_spec a b) as [[_ ->]|[_ ->]].
      * by apply list_elem_of_further.
      * apply list_elem_of_here.
    + intros d [[= ->]|Hd]%elem_of_cons; [lia|].
      specialize (Hub d Hd). lia.
  - intros [= <-]. split; [apply list_elem_of_here|].
    intros d [[= ->]|Hd]%elem_of_cons; [lia|].
    apply sql_max_None in Hb. rewrite Forall_forall in Hb.
    by specialize (Hb _ Hd).
  - intros [= <-]. destruct (IH b eq_refl) as [Hin Hub]. split.
    + by apply list_elem_of_further.
    + intros d [[=]|Hd]%elem_of_cons. by apply Hub.
  - done.
Qed.

(** The last date of a row of [last_date_on_record] is the latest stop date
    of the patient's encounters: it is the stop date of one of them, and no
    encounter of the patient stops later. *)
Theorem last_date_is_latest_stop
    (encounters : list Encounters.row) (l : LastDate.row) (m : date) :
  l ∈ last_date_on_record encounters →
  LastDate.last_date_on_record l = Some m →
  (∃ e, e ∈ encounters ∧ Encounters.PATIENT e = LastDate.PATIENT l ∧
        Encounters.STOP e = Some m) ∧
  (∀ e d, e ∈ encounters → Encounters.PATIENT e = LastDate.PATIENT l →
          Encounters.STOP e = Some d → d ≤ m).
Proof.
  intros [_ Hl]%elem_of_last_date Hm. rewrite Hl in Hm.
  unfold last_date_of, to_date in Hm.
  apply sql_max_Some in Hm as [Hin Hub]. split.
  - apply list_elem_of_fmap in Hin as (e & Hs & [? ?]%list_elem_of_filter).
    by exists e.
  - intros e d He Hk Hs. apply Hub. apply list_elem_of_fmap.
    exists e. split; [done|]. by apply list_elem_of_filter.
Qed.

Lemma last_date_is_latest_stop_witness :
  ∃ e, e ∈ [Encounters.mk (Some "p1") (Some 10);
            Encounters.mk (Some "p2") (Some 99);
            Encounters.mk (Some "p1") (Some 30)] ∧
       Encounters.STOP e = Some 30.
Proof.
  destruct (last_date_is_latest_stop
    [Encounters.mk (Some "p1") (Some 10); Encounters.mk (Some "p2") (Some 99);
     Encounters.mk (Some "p1") (Some 30)]
    (LastDate.mk (Some "p1") (Some 30)) 30) as [(e & He & _ & Hs) _].
  - vm_compute. apply list_elem_of_further, list_elem_of_here.
  - reflexivity.
  - by exists e.
Defined.

Lemma sql_max2_assoc (x y z : option Z) :
  sql_max2 x (sql_max2 y z) = sql_max2 (sql_max2 x y) z.
Proof.
  destruct x as [a|], y as [b|], z as [c|]; simpl; f_equal; lia.
Qed.

Lemma sql_max_app (col1 col2 : list (option Z)) :
  sql_max (col1 ++ col2) = sql_max2 (sql_max col1) (sql_max col2).
Proof.
  unfold sql_max. induction col1 as [|x col1 IH]; simpl.
  - by destruct (foldr sql_max2 None col2).
  - by rewrite IH, sql_max2_assoc.
Qed.

(** The last date over two encounter tables put together is the later of
    the last dates over each, a null side being ignored: the aggregate can
    be computed per part and merged. *)
Theorem last_date_of_app (encounters1 encounters2 : list Encounters.row) k :
  last_date_of (encounters1 ++ encounters2) k =
  sql_max2 (last_date_of encounters1 k) (last_date_of encounters2 k).
Proof.
  unfold last_date_of. by rewrite filter_app, fmap_app, sql_max_app.
Qed.

(** ** The joins *)

Lemma elem_of_pad_of (pad : PatientsAndDates.row) encounters (p : Patients.row) :
  pad ∈ pad_of encounters p ↔
  ∃ k, Patients.Id p = Some k ∧
       (∃ e, e ∈ encounters ∧ Encounters.PATIENT e = Some k) ∧
       pad = pad_select p
               (LastDate.mk (Some k) (last_date_of encounters (Some k))).
Proof.
  unfold pad_of, has_encounter. split.
  - destruct (Patients.Id p) as [k|]; [|by intros ?%elem_of_nil].
    case_bool_decide as He; [|by intros ?%elem_of_nil].
    intros ->%list_elem_of_singleton. exists k. split; [done|]. split; [|done].
    apply list_elem_of_fmap in He as (e & ? & ?). eauto.
  - intros (k & -> & (e & He & Hk) & ->).
    rewrite bool_decide_eq_true_2; [apply list_elem_of_here|].
    apply list_elem_of_fmap. eauto.
Qed.

(** The rows of the dataset are exactly the combinations of a cohort row
    and a patient row with the same non-null patient id for which some
    encounter has that patient id; the row takes the diagnosis date and
    subtype from the cohort row, the birth date, death date and gender from
    the patient row, and the patient's last date from the encounters.  In
    particular [PATIENT] and [Id] of a dataset row are equal and not
    null. *)
Theorem dataset_row_iff
    (cohort : list Cohort.row) (patients : list Patients.row)
    (encounters : list Encounters.row) (r : Dataset.row) :
  r ∈ lung_cancer_patients_dataset cohort patients encounters ↔
  ∃ k lcc p,
    lcc ∈ cohort ∧ p ∈ patients ∧
    Cohort.PATIENT lcc = Some k ∧ Patients.Id p = Some k ∧
    (∃ e, e ∈ encounters ∧ Encounters.PATIENT e = Some k) ∧
    r = {| Dataset.PATIENT := Some k;
           Dataset.START_DATE := Cohort.START_DATE lcc;
           Dataset.type := Cohort.type lcc;
           Dataset.Id := Some k;
           Dataset.BIRTHDATE := Patients.BIRTHDATE p;
           Dataset.death_date := Patients.DEATHDATE p;
           Dataset.GENDER := Patients.GENDER p;
           Dataset.last_date_on_record := last_date_of encounters (Some k);
           Dataset.age_at_diagnosis :=
             age_of (Cohort.START_DATE lcc) (Patients.BIRTHDATE p) |}.
Proof.
  rewrite elem_of_dataset. setoid_rewrite elem_of_dataset_join.
  rewrite patients_and_dates_pad_of. split.
  - intros (lcc & Hlcc & pad & Hpad & -> & k & Hk & Hid).
    apply list_elem_of_bind in Hpad as (p & Hpad & Hp).
    apply elem_of_pad_of in Hpad as (k' & Hk' & He & ->).
    simpl in Hid. rewrite Hk' in Hid. injection Hid as ->.
    exists k, lcc, p. repeat (split; [done|]).
    unfold dataset_select, pad_select, to_date; simpl. by rewrite Hk, Hk'.
  - intros (k & lcc & p & Hlcc & Hp & Hk & Hid & He & ->).
    exists lcc. split; [done|].
    exists (pad_select p
              (LastDate.mk (Some k) (last_date_of encounters (Some k)))).
    split; [|split].
    + apply list_elem_of_bind. exists p. split; [|done].
      apply elem_of_pad_of. exists k. by repeat split.
    + unfold dataset_select, pad_select, to_date; simpl. by rewrite Hk, Hid.
    + exists k. by split.
Qed.

(** A null key never joins: a cohort row with a null [PATIENT] gives no
    dataset row whatever the other tables hold, and a patient row with a
    null [Id] gives no row of [patients_and_dates], also when the
    encounters have a group with a null [PATIENT]. *)
Theorem null_keys_never_join :
  (∀ pads start_date subtype,
     dataset_join pads (Cohort.mk None start_date subtype) = []) ∧
  (∀ birth death gender ld,
     patients_and_dates [Patients.mk None birth death gender] ld = []).
Proof.
  split.
  - intros pads start_date subtype. unfold dataset_join.
    by apply join_no_match.
  - intros birth death gender ld. unfold patients_and_dates.
    rewrite bind_singleton. apply join_no_match.
    intros l. by destruct (LastDate.PATIENT l).
Qed.

Lemma dataset_join_app pads1 pads2 (lcc : Cohort.row) :
  dataset_join (pads1 ++ pads2) lcc =
  dataset_join pads1 lcc ++ dataset_join pads2 lcc.
Proof. unfold dataset_join. apply bind_app. Qed.

(** Without any assumption on the patient ids, a cohort row gives as many
    dataset rows as there are patient rows with its patient id when some
    encounter has that id, and none otherwise: a patient id that occurs
    twice in [patients] doubles the patient's rows. *)
Theorem dataset_rows_multiplicity
    (patients : list Patients.row) (encounters : list Encounters.row)
    (lcc : Cohort.row) :
  length (dataset_join
            (patients_and_dates patients (last_date_on_record encounters))
            lcc) =
  match Cohort.PATIENT lcc with
  | Some k =>
      if has_encounter encounters k
      then length (filter (λ p, Patients.Id p = Some k) patients)
      else 0%nat
  | None => 0%nat
  end.
Proof.
  rewrite patients_and_dates_pad_of.
  destruct (Cohort.PATIENT lcc) as [k|] eqn:Hk.
  - induction patients as [|p ps IH].
    { by destruct (has_encounter encounters k). }
    rewrite bind_cons, dataset_join_app, length_app, IH, filter_cons.
    unfold pad_of at 1. destruct (Patients.Id p) as [k'|] eqn:Hid.
    + destruct (decide (Some k' = Some k)) as [[= ->]|Hne].
      * destruct (has_encounter encounters k); [|done].
        unfold dataset_join. rewrite bind_singleton. simpl.
        rewrite Hk, Hid. simpl. by rewrite bool_decide_eq_true_2.
      * destruct (has_encounter encounters k'); [|done].
        unfold dataset_join. rewrite bind_singleton. simpl.
        rewrite Hk, Hid. simpl.
        rewrite bool_decide_eq_false_2 by congruence. done.
    + rewrite decide_False by done. done.
  - unfold dataset_join. rewrite join_no_match; [done|].
    intros pad. by rewrite Hk.
Qed.

(** ** The pipeline on empty and on split tables *)

(** An empty table anywhere empties the result: without patients, without
    conditions or without encounters the pipeline produces no record. *)
Theorem pipeline_empty_table :
  (∀ conditions encounters, pipeline [] conditions encounters = []) ∧
  (∀ patients encounters, pipeline patients [] encounters = []) ∧
  (∀ patients conditions, pipeline patients conditions [] = []).
Proof.
  split; [|split].
  - intros conditions encounters. unfold pipeline.
    rewrite (elem_of_nil_inv (lung_cancer_patients_dataset _ _ _)); [done|].
    intros r (lcc & _ & Hr)%elem_of_dataset.
    apply elem_of_dataset_join in Hr as (pad & Hpad & _).
    by apply elem_of_nil in Hpad.
  - done.
  - intros patients conditions. unfold pipeline.
    rewrite (elem_of_nil_inv (lung_cancer_patients_dataset _ _ _)); [done|].
    intros r (k & _ & He & _)%elem_of_dataset_last_date.
    unfold has_encounter in He. apply bool_decide_eq_true in He.
    by apply elem_of_nil in He.
Qed.

Lemma bind_app_fun_Permutation {A B} (f g : A → list B) (l : list A) :
  l ≫= (λ x, f x ++ g x) ≡ₚ (l ≫= f) ++ (l ≫= g).
Proof.
  induction l as [|x l IH]; [done|].
  rewrite !bind_cons, IH, <- !(assoc_L (++)).
  apply Permutation_app_head, Permutation_app_swap_app.
Qed.

(** The pipeline can be run on parts of the conditions table or of the
    patients table: as bags, the records of two condition tables put
    together are the records of each, and the records of two patient
    tables put together are the records of each. *)
Theorem pipeline_split_tables
    (patients1 patients2 : list Patients.row)
    (conditions1 conditions2 : list Conditions.row)
    (encounters : list Encounters.row) :
  pipeline patients1 (conditions1 ++ conditions2) encounters ≡ₚ
    pipeline patients1 conditions1 encounters ++
    pipeline patients1 conditions2 encounters ∧
  pipeline (patients1 ++ patients2) conditions1 encounters ≡ₚ
    pipeline patients1 conditions1 encounters ++
    pipeline patients2 conditions1 encounters.
Proof.
  unfold pipeline, lung_cancer_survival_data, lung_cancer_patients_dataset.
  split.
  - unfold lung_cancer_cohort.
    by rewrite filter_app, fmap_app, bind_app, fmap_app.
  - rewrite <- fmap_app. apply fmap_Permutation.
    rewrite <- bind_app_fun_Permutation.
    apply bind_Permutation_ext; [|done]. intros lcc.
    unfold patients_and_dates. by rewrite bind_app, dataset_join_app.
Qed.

(** Every record the pipeline produces has the subtype SCLC or NSCLC, a
    status that agrees with its own death date (1 when there is one, 0 when
    it is null), and a null time when its diagnosis date is null. *)
Theorem pipeline_record_invariants
    (patients : list Patients.row) (conditions : list Conditions.row)
    (encounters : list Encounters.row) :
  Forall (λ s,
    (Survival.type s = "SCLC" ∨ Survival.type s = "NSCLC") ∧
    (Survival.status s = if Survival.death_date s is Some _ then 1 else 0) ∧
    (Survival.START_DATE s = None → Survival.time s = None))
    (pipeline patients conditions encounters).
Proof.
  apply Forall_forall. intros s (r & Hr & ->)%elem_of_pipeline.
  apply elem_of_dataset in Hr as (lcc & Hlcc & Hr).
  apply elem_of_dataset_join in Hr as (pad & _ & -> & _).
  apply elem_of_cohort in Hlcc as (c & _ & _ & ->).
  unfold survival_select, dataset_select, cohort_select; simpl.
  split; [|split].
  - destruct (sql_true _); auto.
  - by destruct (PatientsAndDates.death_date pad).
  - intros ->. unfold datediff.
    destruct (PatientsAndDates.death_date pad); simpl; [done|].
    by destruct (PatientsAndDates.last_date_on_record pad).
Qed.

(** ** Age at diagnosis in whole numbers *)

Lemma round_half_up_356 (n : Z) :
  round_half_up (inject_Z n / 356) =
  if 0 <=? n then (n + 178) / 356 else - ((- n + 178) / 356).
Proof.
  unfold round_half_up, Qle_bool, Qfloor, Qplus, Qopp, Qdiv, Qmult, Qinv,
    inject_Z.
  simpl.
  change (Z.pos (1 * 356 * 2)) with (356 * 2).
  change (Z.pos (1 * 356)) with 356.
  rewrite Z.mul_0_l, !Z.mul_1_r, Z.mul_1_l.
  destruct (0 <=? n) eqn:Hn.
  - replace (n * 2 + 356) with ((n + 178) * 2) by lia.
    by rewrite Z.div_mul_cancel_r.
  - f_equal. replace (- n * 2 + 356) with ((- n + 178) * 2) by lia.
    by rewrite Z.div_mul_cancel_r.
Qed.

(** The age at diagnosis of a dataset row is null when its diagnosis date
    or its birth date is null; otherwise, with n the days from birth to
    diagnosis, it is the whole number (n + 178) div 356 when n is not
    negative and -((-n + 178) div 356) when it is.  So it is not negative
    when the diagnosis is not before the birth, and a diagnosis 178 days or
    more before the birth gives a negative age, which is kept. *)
Theorem age_at_diagnosis_integer
    (cohort : list Cohort.row) (patients : list Patients.row)
    (encounters : list Encounters.row) :
  Forall (λ r,
    match Dataset.START_DATE r, Dataset.BIRTHDATE r with
    | Some s, Some b =>
        ∃ a, Dataset.age_at_diagnosis r = Some a ∧
             a = (if 0 <=? s - b then (s - b + 178) / 356
                  else - ((b - s + 178) / 356)) ∧
             (b ≤ s → 0 ≤ a) ∧
             (s + 178 ≤ b → a < 0)
    | _, _ => Dataset.age_at_diagnosis r = None
    end)
    (lung_cancer_patients_dataset cohort patients encounters).
Proof.
  apply Forall_dataset. intros lcc pad.
  unfold dataset_select, age_of; simpl.
  destruct (Cohort.START_DATE lcc) as [s|]; [|done].
  destruct (PatientsAndDates.BIRTHDATE pad) as [b|]; [|done].
  simpl. rewrite round_half_up_356. eexists. split; [done|].
  replace (- (s - b) + 178) with (b - s + 178) by lia.
  split; [done|]. split.
  - intros Hle. rewrite (proj2 (Z.leb_le 0 (s - b))) by lia.
    apply Z.div_pos; lia.
  - intros Hle. rewrite (proj2 (Z.leb_gt 0 (s - b))) by lia.
    assert (1 ≤ (b - s + 178) / 356); [|lia].
    apply Z.div_le_lower_bound; lia.
Qed.

(** ** The distribution queries *)

Section group_count.
Context {A K : Type} `{EqDecision K} (f : A → K).

Lemma sum_indicator (k0 : K) (ks : list K) :
  NoDup ks →
  foldr Z.add 0 ((λ k, if decide (k0 = k) then 1 else 0) <$> ks) =
  if decide (k0 ∈ ks) then 1 else 0.
Proof.
  induction 1 as [|k ks Hk Hnd IH]; csimpl; [done|].
  rewrite IH.
  destruct (decide (k0 = k)) as [->|Hne].
  - rewrite decide_False by done.
    rewrite decide_True by apply list_elem_of_here. done.
  - destruct (decide (k0 ∈ ks)).
    + by rewrite decide_True by (by apply list_elem_of_further).
    + rewrite decide_False; [done|].
      rewrite elem_of_cons. by intros [?|?].
Qed.

Lemma sum_add (g h : K → Z) (ks : list K) :
  foldr Z.add 0 ((λ k, g k + h k) <$> ks) =
  foldr Z.add 0 (g <$> ks) + foldr Z.add 0 (h <$> ks).
Proof. induction ks as [|k ks IH]; csimpl; lia. Qed.

(** Counting the rows of each group and adding up the counts gives the
    number of rows, when every row's key is among the groups. *)
Lemma group_count_total (l : list A) (ks : list K) :
  NoDup ks →
  (∀ x, x ∈ l → f x ∈ ks) →
  foldr Z.add 0
    ((λ k, Z.of_nat (length (filter (λ x, f x = k) l))) <$> ks) =
  Z.of_nat (length l).
Proof.
  intros Hnd. induction l as [|x l IH]; intros Hin.
  - clear Hnd Hin. induction ks as [|k ks IHks]; [done|].
    rewrite fmap_cons. cbn [foldr]. by rewrite IHks.
  - erewrite (list_fmap_ext _
      (λ k, (if decide (f x = k) then 1 else 0) +
            Z.of_nat (length (filter (λ y, f y = k) l)))).
    + rewrite sum_add, sum_indicator, IH by eauto using list_elem_of_further.
      rewrite decide_True by apply Hin, list_elem_of_here.
      simpl length. lia.
    + intros _ k _. simpl. rewrite filter_cons.
      destruct (decide (f x = k)); simpl length; lia.
Qed.
End group_count.

Lemma code_distribution_spec (vs : list Z) (conditions : list Conditions.row) :
  let d := code_distribution vs conditions in
  NoDup ((λ r, (Distribution.CODE r, Distribution.DESCRIPTION r)) <$> d) ∧
  Forall (λ r, 1 ≤ Distribution.cnt r ∧
               ∃ z, Distribution.CODE r = Some z ∧ z ∈ vs) d ∧
  foldr Z.add 0 (Distribution.cnt <$> d) =
  Z.of_nat (length (filter
    (λ c, sql_true (sql_in (Conditions.CODE c) vs) = true) conditions)).
Proof.
  unfold code_distribution.
  set (rows := filter _ conditions). simpl. split; [|split].
  - rewrite <- list_fmap_compose.
    rewrite (list_fmap_ext _ id (remove_dups (code_group <$> rows))).
    + rewrite list_fmap_id. apply NoDup_remove_dups.
    + intros _ [code descr] _. done.
  - apply Forall_fmap, Forall_forall. intros g Hg. simpl.
    apply elem_of_remove_dups, list_elem_of_fmap in Hg as (c & -> & Hc).
    split.
    + assert (c ∈ filter (λ c', code_group c' = code_group c) rows) as Hin.
      { by apply list_elem_of_filter. }
      destruct (filter _ rows); [by apply elem_of_nil in Hin|].
      simpl length. lia.
    + apply list_elem_of_filter in Hc as [Hc _].
      by apply sql_true_in in Hc.
  - rewrite <- list_fmap_compose.
    apply (group_count_total code_group rows).
    + apply NoDup_remove_dups.
    + intros c Hc. apply elem_of_remove_dups, list_elem_of_fmap. eauto.
Qed.

Lemma length_pos_elem {A} (x : A) (l : list A) :
  x ∈ l → 1 ≤ Z.of_nat (length l).
Proof. destruct l; [by intros ?%elem_of_nil | simpl length; lia]. Qed.

(** A row is in the distribution exactly when its code is one of the
    selected values, some condition has its code and description, and its
    count is the number of conditions that have them. *)
Lemma elem_of_code_distribution (vs : list Z)
    (conditions : list Conditions.row) (r : Distribution.row) :
  r ∈ code_distribution vs conditions ↔
  (∃ z, Distribution.CODE r = Some z ∧ z ∈ vs) ∧
  1 ≤ Distribution.cnt r ∧
  Distribution.cnt r =
    Z.of_nat (length (filter
      (λ c, Conditions.CODE c = Distribution.CODE r ∧
            Conditions.DESCRIPTION c = Distribution.DESCRIPTION r)
      conditions)).
Proof.
  assert (∀ g : option Z * option string,
    (∃ z, g.1 = Some z ∧ z ∈ vs) →
    filter (λ c, code_group c = g)
      (filter (λ c, sql_true (sql_in (Conditions.CODE c) vs) = true)
         conditions) =
    filter (λ c, Conditions.CODE c = g.1 ∧ Conditions.DESCRIPTION c = g.2)
      conditions) as Hgroup.
  { intros [code descr] (z & Hz & Hin). simpl in Hz. subst code.
    rewrite list_filter_filter_l.
    - apply list_filter_iff. intros c. unfold code_group. simpl. split.
      + by intros [= -> ->].
      + by intros [-> ->].
    - intros c [= Hc _]. apply sql_true_in. eauto. }
  unfold code_distribution. rewrite list_elem_of_fmap.
  setoid_rewrite elem_of_remove_dups. setoid_rewrite list_elem_of_fmap.
  split.
  - intros (g & -> & c & -> & Hc). simpl.
    apply list_elem_of_filter in Hc as Hsel. destruct Hsel as [Hsel Hin].
    apply sql_true_in in Hsel as (z & Hz & Hvs).
    assert (∃ z, (code_group c).1 = Some z ∧ z ∈ vs) as Hex by eauto.
    split; [done|]. rewrite (Hgroup _ Hex). simpl. split; [|done].
    apply (length_pos_elem c). by apply list_elem_of_filter.
  - destruct r as [code descr n]. simpl.
    intros ((z & -> & Hvs) & Hpos & ->).
    destruct (filter
                (λ c, Conditions.CODE c = Some z ∧
                      Conditions.DESCRIPTION c = descr) conditions)
      as [|c cs] eqn:Hf; [simpl in Hpos; lia|].
    assert (c ∈ filter
              (λ c, Conditions.CODE c = Some z ∧
                    Conditions.DESCRIPTION c = descr) conditions) as Hc.
    { rewrite Hf. apply list_elem_of_here. }
    apply list_elem_of_filter in Hc as [[Hcode Hdescr] Hin].
    exists (Some z, descr). split.
    + rewrite (Hgroup (Some z, descr)) by (simpl; eauto).
      simpl. by rewrite Hf.
    + exists c. split; [unfold code_group; by rewrite Hcode, Hdescr|].
      apply list_elem_of_filter. split; [|done].
      apply sql_true_in. eauto.
Qed.

(** The distribution of cell type has exactly one row for every pair of
    code and description that some condition with one of the two
    diagnostic codes has, and no other row; the count of a row is the
    number of conditions with its code and description, and the counts add
    up to the number of rows of the cohort. *)
Theorem cell_type_distribution_counts (conditions : list Conditions.row) :
  let d := cell_type_distribution conditions in
  NoDup ((λ r, (Distribution.CODE r, Distribution.DESCRIPTION r)) <$> d) ∧
  (∀ r, r ∈ d ↔
     (Distribution.CODE r = Some 254632001 ∨
      Distribution.CODE r = Some 254637007) ∧
     1 ≤ Distribution.cnt r ∧
     Distribution.cnt r =
       Z.of_nat (length (filter
         (λ c, Conditions.CODE c = Distribution.CODE r ∧
               Conditions.DESCRIPTION c = Distribution.DESCRIPTION r)
         conditions))) ∧
  foldr Z.add 0 (Distribution.cnt <$> d) =
  Z.of_nat (length (lung_cancer_cohort conditions)).
Proof.
  destruct (code_distribution_spec [254632001; 254637007] conditions)
    as (Hnd & _ & Htotal).
  split; [done|]. split.
  - intros r. unfold cell_type_distribution.
    rewrite elem_of_code_distribution.
    assert ((∃ z, Distribution.CODE r = Some z ∧
                  z ∈ [254632001; 254637007]) ↔
            Distribution.CODE r = Some 254632001 ∨
            Distribution.CODE r = Some 254637007) as Hiff.
    { split.
      - intros (z & -> & Hz). rewrite !elem_of_cons, elem_of_nil in Hz.
        destruct Hz as [->|[->|[]]]; auto.
      - intros [-> | ->]; eexists; (split; [done|]);
          rewrite !elem_of_cons; auto. }
    by rewrite Hiff.
  - unfold cell_type_distribution. rewrite Htotal.
    unfold lung_cancer_cohort. by rewrite length_fmap.
Qed.

(** The distribution by cell type and stage has exactly one row for every
    pair of code and description that some condition with a code of
    [codes] has, and no other row; the count of a row is the number of
    conditions with its code and description, and the counts add up to the
    number of conditions whose code is a value of [codes]. *)
Theorem stage_distribution_counts (conditions : list Conditions.row) :
  let d := stage_distribution conditions in
  NoDup ((λ r, (Distribution.CODE r, Distribution.DESCRIPTION r)) <$> d) ∧
  (∀ r, r ∈ d ↔
     (∃ name z, (name, z) ∈ codes ∧ Distribution.CODE r = Some z) ∧
     1 ≤ Distribution.cnt r ∧
     Distribution.cnt r =
       Z.of_nat (length (filter
         (λ c, Conditions.CODE c = Distribution.CODE r ∧
               Conditions.DESCRIPTION c = Distribution.DESCRIPTION r)
         conditions))) ∧
  foldr Z.add 0 (Distribution.cnt <$> d) =
  Z.of_nat (length (filter
    (λ c, sql_true (sql_in (Conditions.CODE c) (snd <$> codes)) = true)
    conditions)).
Proof.
  destruct (code_distribution_spec (snd <$> codes) conditions)
    as (Hnd & _ & Htotal).
  split; [done|]. split; [|done].
  intros r. change (stage_distribution conditions)
    with (code_distribution (snd <$> codes) conditions).
  rewrite elem_of_code_distribution.
  assert ((∃ z, Distribution.CODE r = Some z ∧ z ∈ snd <$> codes) ↔
          ∃ name z, (name, z) ∈ codes ∧ Distribution.CODE r = Some z)
    as Hiff.
  { split.
    - intros (z & Hcode & Hz).
      apply list_elem_of_fmap in Hz as ([name z'] & -> & Hz). eauto.
    - intros (name & z & Hin & Hcode). exists z. split; [done|].
      apply list_elem_of_fmap. by exists (name, z). }
  by rewrite Hiff.
Qed.

(** ** Censored survival times *)

(** For a censored dataset row (no death date) with a diagnosis date, the
    survival time is a non-negative number of days exactly when some
    encounter of the row's patient stops on or after the diagnosis date. *)
Theorem censored_time_nonneg_iff
    (cohort : list Cohort.row) (patients : list Patients.row)
    (encounters : list Encounters.row) (r : Dataset.row) (s : date) :
  r ∈ lung_cancer_patients_dataset cohort patients encounters →
  Dataset.death_date r = None →
  Dataset.START_DATE r = Some s →
  (∃ t, Survival.time (survival_select r) = Some t ∧ 0 ≤ t) ↔
  (∃ e d, e ∈ encounters ∧ Encounters.PATIENT e = Dataset.PATIENT r ∧
          Encounters.STOP e = Some d ∧ s ≤ d).
Proof.
  intros (k & Hk & _ & Hl)%elem_of_dataset_last_date Hdeath Hs.
  rewrite survival_time_end_date. unfold end_date.
  rewrite Hdeath, Hl, Hs, Hk. unfold datediff. split.
  - intros (t & Ht & Hpos).
    destruct (last_date_of encounters (Some k)) as [m|] eqn:Hm; [|done].
    simpl in Ht. injection Ht as <-.
    unfold last_date_of, to_date in Hm.
    apply sql_max_Some in Hm as [Hin _].
    apply list_elem_of_fmap in Hin as (e & Hstop & [? ?]%list_elem_of_filter).
    exists e, m. repeat split; [done | done | done | lia].
  - intros (e & d & He & Hp & Hstop & Hle).
    assert (is_Some (last_date_of encounters (Some k))) as [m Hm].
    { apply last_date_of_is_Some. exists e. by rewrite Hstop. }
    rewrite Hm. simpl. exists (m - s). split; [done|].
    unfold last_date_of, to_date in Hm.
    apply sql_max_Some in Hm as [_ Hub].
    assert (d ≤ m); [|lia]. apply Hub, list_elem_of_fmap.
    exists e. split; [done|]. by apply list_elem_of_filter.
Qed.

Lemma censored_time_nonneg_iff_witness :
  ∃ t, Survival.time (survival_select
         (Dataset.mk (Some "p1") (Some 100) "SCLC" (Some "p1") (Some 0) None
            (Some "M") (Some 130) (Some 0))) = Some t ∧ 0 ≤ t.
Proof.
  apply (censored_time_nonneg_iff
    [Cohort.mk (Some "p1") (Some 100) "SCLC"]
    [Patients.mk (Some "p1") (Some 0) None (Some "M")]
    [Encounters.mk (Some "p1") (Some 90); Encounters.mk (Some "p1") (Some 130)]
    _ 100).
  - vm_compute. apply list_elem_of_here.
  - reflexivity.
  - reflexivity.
  - exists (Encounters.mk (Some "p1") (Some 130)), 130.
    split; [apply list_elem_of_further, list_elem_of_here|].
    repeat split. lia.
Defined.
